(** * Trader X AI: the automated decision loop of the Kraken trading bot

    A shallow embedding of [backend/brokers/kraken.py] (class [KrakenAPI])
    and [backend/main.py] (class [TradingBot]), and the properties of the
    decision loop: leverage guard, protective exits, position sizing,
    indicators, feed handling, drawdown tracking and start-up.

    Modelling conventions.
    - A [decimal.Decimal] is the rational number it denotes ([Q], kept in
      lowest terms by every operation).  The context rounding to 28
      significant digits, and the special values NaN and Infinity, are
      outside the model: operations are exact.
    - A pandas [float64] is a rational or one of the IEEE special values
      that [x / 0] produces; rounding and the sign of zero are not modelled.
    - [async] methods are state-passing functions on a [world]: the
      [KrakenAPI] object, the requests sent so far and the replies the
      exchange will give.  An exception leaves the mutations made before it
      in place, as in Python.
    - Logging ([print], [logger]), timestamps, the nonce and the request
      signature do not take part in any property below and are left out. *)

From Stdlib Require Import ZArith QArith Qminmax Lqa Lia Ascii.
From stdpp Require Import base gmap strings list.

(** ** Python values *)

Module Py.

(** The exceptions the modelled code can raise. *)
Inductive exn :=
| LeverageExceeds (leverage maximum : Z)
    (* ValueError(f"Leverage {leverage} exceeds maximum allowed {max}") *)
| NoPriceData (pair : string)
    (* ValueError(f"No price data available for {pair}") *)
| StrategyNotFound (name : string)
    (* ValueError(f"Estrategia no encontrada: {strategy_name}") *)
| ValueError (what : string)
| TypeError (what : string)
| KeyError (key : string)
| IndexError
| AttributeError (name : string)
| InvalidOperation            (* decimal.InvalidOperation *)
| DivisionByZero              (* decimal.DivisionByZero *)
| TransportError (endpoint msg : string)
    (* httpx error, HTTP status error, timeout, undecodable body *)
| KrakenError (endpoint msg : string)
    (* Exception(f"Kraken API error: {result['error']}") *)
| JSONDecodeError.

Inductive outcome (A : Type) :=
| Ok (a : A)
| Raise (e : exn).
Arguments Ok {A} a.
Arguments Raise {A} e.

Definition is_ok {A} (o : outcome A) : bool :=
  match o with Ok _ => true | Raise _ => false end.

#[export] Instance outcome_ret : MRet outcome := @Ok.
#[export] Instance outcome_bind : MBind outcome :=
  λ A B k o, match o with Ok a => k a | Raise e => Raise e end.

(** [None * Decimal]: neither operand implements the product. *)
Definition NoneTimesDecimal : exn :=
  TypeError "unsupported operand type(s) for *: 'NoneType' and 'decimal.Decimal'".

(** The failure the specification calls RiskLimitExceeded: the leverage
    check, the one risk limit the code enforces. *)
Definition RiskLimitExceeded (e : exn) : Prop :=
  ∃ leverage maximum, e = LeverageExceeds leverage maximum.

(** A decoded JSON document ([json.loads]). *)
#[local] Set Warnings "-register-all".
Inductive json :=
| JNull
| JBool (b : bool)
| JNum (q : Q)
| JStr (s : string)
| JList (l : list json)
| JDict (d : list (string * json)).

(** [d[key]] on an association list standing for a [dict]. *)
Fixpoint assoc {V} (key : string) (d : list (string * V)) : option V :=
  match d with
  | [] => None
  | (k, v) :: d' => if decide (k = key) then Some v else assoc key d'
  end.

(** [v[key]] with a string key. *)
Definition getitem (v : json) (key : string) : outcome json :=
  match v with
  | JDict d =>
      match assoc key d with
      | Some x => Ok x
      | None => Raise (KeyError key)
      end
  | JList _ => Raise (TypeError "list indices must be integers")
  | JStr _ => Raise (TypeError "string indices must be integers")
  | _ => Raise (TypeError "object is not subscriptable")
  end.

(** [v[i]] with a non-negative integer literal [i]. *)
Definition getindex (v : json) (i : nat) : outcome json :=
  match v with
  | JList l =>
      match l !! i with
      | Some x => Ok x
      | None => Raise IndexError
      end
  | JStr s =>
      match String.get i s with
      | Some c => Ok (JStr (String c EmptyString))
      | None => Raise IndexError
      end
  | JDict _ => Raise (KeyError "<int>")
  | _ => Raise (TypeError "object is not subscriptable")
  end.

End Py.
Export Py.

(** ** decimal.Decimal *)

Module Dec.

Abbreviation Decimal := Q (only parsing).

Local Open Scope Q_scope.

Definition add (a b : Decimal) : Decimal := Qred (a + b).
Definition sub (a b : Decimal) : Decimal := Qred (a - b).
Definition mul (a b : Decimal) : Decimal := Qred (a * b).

(** [a / b]: the default context traps division by zero. *)
Definition div (a b : Decimal) : outcome Decimal :=
  if Qeq_bool b 0 then
    if Qeq_bool a 0 then Raise InvalidOperation else Raise DivisionByZero
  else Ok (Qred (a / b)).

(** [bool(d)]: a Decimal is falsy exactly when it is zero. *)
Definition truthy (d : Decimal) : bool := negb (Qeq_bool d 0).

(** [a < b], [a > b] as Python evaluates them. *)
Definition ltb (a b : Decimal) : bool :=
  match a ?= b with Lt => true | _ => false end.
Definition gtb (a b : Decimal) : bool := ltb b a.

(** Built-in [min(a, b)] and [max(a, b)]: the first argument wins ties. *)
Definition min (a b : Decimal) : Decimal := if ltb b a then b else a.
Definition max (a b : Decimal) : Decimal := if gtb b a then b else a.

(** *** [Decimal(text)]

    Numeric strings: an optional sign, digits with an optional decimal
    point (at least one digit in all), and an optional exponent [e] or [E]
    with its own sign and digits.  Surrounding whitespace, underscores and
    the spellings of NaN and Infinity are rejected. *)

Definition digit (c : ascii) : option Z :=
  let n := nat_of_ascii c in
  if (48 <=? n)%nat && (n <=? 57)%nat then Some (Z.of_nat (n - 48)) else None.

(** Reads a maximal run of digits: its value, its length and the rest. *)
Fixpoint digits (acc : Z) (len : nat) (cs : list ascii) : Z * nat * list ascii :=
  match cs with
  | c :: cs' =>
      match digit c with
      | Some d => digits (10 * acc + d) (S len) cs'
      | None => (acc, len, cs)
      end
  | [] => (acc, len, [])
  end.

Definition sign (cs : list ascii) : bool * list ascii :=
  match cs with
  | "-"%char :: cs' => (true, cs')
  | "+"%char :: cs' => (false, cs')
  | _ => (false, cs)
  end.

Definition pow10 (e : Z) : Q :=
  if (0 <=? e)%Z then inject_Z (10 ^ e) else / inject_Z (10 ^ (- e)).

Definition exponent (cs : list ascii) : option Z :=
  match cs with
  | [] => Some 0%Z
  | c :: cs' =>
      if decide (c = "e"%char ∨ c = "E"%char) then
        let '(neg, ds) := sign cs' in
        match digits 0 0 ds with
        | (_, O, _) => None
        | (v, S _, []) => Some (if neg then (- v)%Z else v)
        | (_, S _, _ :: _) => None
        end
      else None
  end.

Definition of_chars (cs : list ascii) : option Decimal :=
  let '(neg, cs1) := sign cs in
  let '(ip, ilen, cs2) := digits 0 0 cs1 in
  let '(coeff, flen, cs3) :=
    match cs2 with
    | "."%char :: cs2' => let '(v, n, r) := digits ip 0 cs2' in (v, n, r)
    | _ => (ip, O, cs2)
    end in
  if (ilen + flen =? 0)%nat then None
  else
    match exponent cs3 with
    | Some e =>
        let q := (inject_Z coeff * pow10 (e - Z.of_nat flen))%Q in
        Some (Qred (if neg then - q else q))
    | None => None
    end.

Definition of_string (s : string) : outcome Decimal :=
  match of_chars (String.list_ascii_of_string s) with
  | Some d => Ok d
  | None => Raise InvalidOperation
  end.

(** [Decimal(v)] on a decoded JSON value. *)
Definition of_json (v : json) : outcome Decimal :=
  match v with
  | JStr s => of_string s
  | JNum q => Ok (Qred q)
  | JBool b => Ok (if b then 1 else 0)
  | JList _ => Raise (ValueError "argument must be a sequence of length 3")
  | _ => Raise (TypeError "conversion to Decimal is not supported")
  end.

End Dec.
Export Dec(Decimal).

(** ** numpy.float64 and the pandas Series operations in use *)

Module F64.

Inductive float64 :=
| Fin (q : Q)
| PosInf
| NegInf
| NaN.

Local Open Scope Q_scope.

Definition neg (x : float64) : float64 :=
  match x with
  | Fin a => Fin (Qred (- a))
  | PosInf => NegInf
  | NegInf => PosInf
  | NaN => NaN
  end.

Definition add (x y : float64) : float64 :=
  match x, y with
  | NaN, _ | _, NaN => NaN
  | Fin a, Fin b => Fin (Qred (a + b))
  | PosInf, NegInf | NegInf, PosInf => NaN
  | PosInf, _ | _, PosInf => PosInf
  | NegInf, _ | _, NegInf => NegInf
  end.

Definition sub (x y : float64) : float64 := add x (neg y).

(** The sign of an infinite or finite operand, for products and quotients. *)
Definition signum (x : float64) : comparison :=
  match x with
  | Fin a => a ?= 0
  | PosInf => Gt
  | NegInf => Lt
  | NaN => Eq
  end.

Definition inf_of (positive : bool) : float64 :=
  if positive then PosInf else NegInf.

Definition mul (x y : float64) : float64 :=
  match x, y with
  | NaN, _ | _, NaN => NaN
  | Fin a, Fin b => Fin (Qred (a * b))
  | _, _ =>
      match signum x, signum y with
      | Eq, _ | _, Eq => NaN                   (* inf * 0 *)
      | Gt, Gt | Lt, Lt => PosInf
      | _, _ => NegInf
      end
  end.

(** Division never raises: [x / 0] is an infinity, [0 / 0] is NaN. *)
Definition div (x y : float64) : float64 :=
  match x, y with
  | NaN, _ | _, NaN => NaN
  | Fin a, Fin b =>
      if Qeq_bool b 0 then
        match a ?= 0 with
        | Gt => PosInf
        | Lt => NegInf
        | Eq => NaN
        end
      else Fin (Qred (a / b))
  | Fin _, _ => Fin 0
  | _, Fin b => inf_of (eqb (match signum x with Gt => true | _ => false end)
                            (match b ?= 0 with Lt => false | _ => true end))
  | _, _ => NaN                                (* inf / inf *)
  end.

(** Comparisons: anything involving NaN is False. *)
Definition ltb (x y : float64) : bool :=
  match x, y with
  | NaN, _ | _, NaN => false
  | Fin a, Fin b => match a ?= b with Lt => true | _ => false end
  | NegInf, NegInf => false
  | NegInf, _ => true
  | _, PosInf => match x with PosInf => false | _ => true end
  | _, _ => false
  end.
Definition gtb (x y : float64) : bool := ltb y x.

Definition of_nat (n : nat) : float64 := Fin (inject_Z (Z.of_nat n)).

(** [x] is the finite number [q]. *)
Definition denotes (x : float64) (q : Q) : Prop := ∃ a, x = Fin a ∧ a == q.

End F64.
Export F64(float64, Fin, PosInf, NegInf, NaN).

Module Pd.

(** [s.diff()]: the first entry has no predecessor. *)
Definition diff (s : list float64) : list float64 :=
  match s with
  | [] => []
  | _ :: s' => NaN :: zip_with (λ prev cur, F64.sub cur prev) s s'
  end.

(** [s.where(cond, other)]: keeps the entries on which [cond] holds. *)
Definition where_ (cond : float64 → bool) (other : float64)
    (s : list float64) : list float64 :=
  (λ x, if cond x then x else other) <$> s.

Definition sum (s : list float64) : float64 := foldl F64.add (Fin 0) s.

(** [s.rolling(window=w).mean()]: NaN until [w] observations are there. *)
Definition rolling_mean (w : nat) (s : list float64) : list float64 :=
  imap (λ i _, if (S i <? w)%nat then NaN
               else F64.div (sum (take w (drop (S i - w) s))) (F64.of_nat w)) s.

(** [s.ewm(span=span, adjust=False).mean()]: seeded from the first entry,
    then [y = (1 - alpha) * y_prev + alpha * x] with [alpha = 2 / (span + 1)]. *)
Definition alpha (span : nat) : float64 :=
  F64.div (Fin 2) (F64.of_nat (span + 1)).

Fixpoint ewm_from (a prev : float64) (s : list float64) : list float64 :=
  match s with
  | [] => []
  | x :: s' =>
      let y := F64.add (F64.mul (F64.sub (Fin 1) a) prev) (F64.mul a x) in
      y :: ewm_from a y s'
  end.

Definition ewm_mean (span : nat) (s : list float64) : list float64 :=
  match s with
  | [] => []
  | x :: s' => x :: ewm_from (alpha span) x s'
  end.

(** [s.iloc[-1]] *)
Definition iloc_last {A} (s : list A) : outcome A :=
  match last s with
  | Some x => Ok x
  | None => Raise IndexError
  end.

End Pd.

(** ** class KrakenAPI (backend/brokers/kraken.py) *)

Module Kraken.

(** An entry of [self.active_trades] (a dict per order id). *)
Record trade := Trade {
  trade_pair : string;
  trade_type : string;
  trade_side : string;
  trade_volume : Decimal;
  trade_price : option Decimal;
  trade_stop_loss : Decimal;
  trade_take_profit : Decimal
}.

(** An entry of [self.price_cache] (a dict per pair). *)
Record quote := Quote {
  quote_price : Decimal;
  quote_volume : Decimal
}.

(** The attributes [__init__] sets that the decision loop reads or
    writes.  The caches are restricted to their string keys: every read
    in the program uses a [str] pair or order id. *)
Record KrakenAPI := {
  active_trades : gmap string trade;
  price_cache : gmap string quote;
  max_position_size : Decimal;
  max_leverage : Z;
  stop_loss_pct : Decimal;
  take_profit_pct : Decimal;
  _running : bool
}.

(** [KrakenAPI()] *)
Definition __init__ : KrakenAPI := {|
  active_trades := ∅;
  price_cache := ∅;
  max_position_size := 0.1%Q;
  max_leverage := 5;
  stop_loss_pct := 0.02%Q;
  take_profit_pct := 0.06%Q;
  _running := false
|}.

Definition set_active_trades (f : gmap string trade → gmap string trade)
    (s : KrakenAPI) : KrakenAPI :=
  {| active_trades := f (active_trades s);
     price_cache := price_cache s;
     max_position_size := max_position_size s;
     max_leverage := max_leverage s;
     stop_loss_pct := stop_loss_pct s;
     take_profit_pct := take_profit_pct s;
     _running := _running s |}.

Definition set_price_cache (f : gmap string quote → gmap string quote)
    (s : KrakenAPI) : KrakenAPI :=
  {| active_trades := active_trades s;
     price_cache := f (price_cache s);
     max_position_size := max_position_size s;
     max_leverage := max_leverage s;
     stop_loss_pct := stop_loss_pct s;
     take_profit_pct := take_profit_pct s;
     _running := _running s |}.

Definition set_running (b : bool) (s : KrakenAPI) : KrakenAPI :=
  {| active_trades := active_trades s;
     price_cache := price_cache s;
     max_position_size := max_position_size s;
     max_leverage := max_leverage s;
     stop_loss_pct := stop_loss_pct s;
     take_profit_pct := take_profit_pct s;
     _running := b |}.

(** *** The exchange *)

(** A value of the form-encoded request body. *)
Inductive field :=
| FStr (s : string)
| FDec (d : Decimal)      (* str(d) of a Decimal *)
| FInt (z : Z).           (* an int, or str(z) of an int *)

(** One POST to [/0/private/{endpoint}] with its body, keys in insertion
    order. *)
Definition request : Type := string * list (string * field).

(** The results are taken in the shape the REST API documents for each
    endpoint; a body of another shape counts as a [Failure].  [AddOrder]
    answers with the transaction ids and a description. *)
Record order_ack := OrderAck {
  txid : list string;
  descr : string
}.

(** A row of the OHLC table, columns as [analyze_market] names them. *)
Record candle := Candle {
  c_time : Z;
  c_open : Q;
  c_high : Q;
  c_low : Q;
  c_close : Q;
  c_vwap : Q;
  c_volume : Q;
  c_count : Z
}.

(** What one request comes back with. *)
Inductive reply (T : Type) :=
| Failure (msg : string)        (* transport or HTTP error, timeout *)
| ErrorPayload (msg : string)   (* non-empty result['error'] *)
| Result (r : T).               (* result['result'] *)
Arguments Failure {T} msg.
Arguments ErrorPayload {T} msg.
Arguments Result {T} r.

(** The endpoints in use, indexed by the shape of their result. *)
Inductive endpoint : Type → Type :=
| AddOrder : endpoint order_ack
| Balance : endpoint (list (string * string))
| OpenPositions : endpoint (list string)
| OHLC : endpoint (list (string * list candle)).

Definition endpoint_name {T} (e : endpoint T) : string :=
  match e with
  | AddOrder => "AddOrder"
  | Balance => "Balance"
  | OpenPositions => "OpenPositions"
  | OHLC => "OHLC"
  end.

(** The replies the exchange is going to give, per endpoint, in order. *)
Record exchange := Exchange {
  on_AddOrder : list (reply order_ack);
  on_Balance : list (reply (list (string * string)));
  on_OpenPositions : list (reply (list string));
  on_OHLC : list (reply (list (string * list candle)))
}.

Definition pop {A} (l : list A) : option A * list A :=
  match l with
  | [] => (None, [])
  | x :: l' => (Some x, l')
  end.

Definition next_reply {T} (e : endpoint T) (ex : exchange)
    : option (reply T) * exchange :=
  match e in endpoint T return option (reply T) * exchange with
  | AddOrder =>
      let '(r, rest) := pop (on_AddOrder ex) in
      (r, Exchange rest (on_Balance ex) (on_OpenPositions ex) (on_OHLC ex))
  | Balance =>
      let '(r, rest) := pop (on_Balance ex) in
      (r, Exchange (on_AddOrder ex) rest (on_OpenPositions ex) (on_OHLC ex))
  | OpenPositions =>
      let '(r, rest) := pop (on_OpenPositions ex) in
      (r, Exchange (on_AddOrder ex) (on_Balance ex) rest (on_OHLC ex))
  | OHLC =>
      let '(r, rest) := pop (on_OHLC ex) in
      (r, Exchange (on_AddOrder ex) (on_Balance ex) (on_OpenPositions ex) rest)
  end.

(** *** Methods as state-passing functions *)

Record world := World {
  self : KrakenAPI;
  sent : list request;
  exch : exchange
}.

Definition M (A : Type) : Type := world → outcome A * world.

Definition ret {A} (a : A) : M A := λ w, (Ok a, w).
Definition raise {A} (e : exn) : M A := λ w, (Raise e, w).
Definition bind {A B} (c : M A) (k : A → M B) : M B :=
  λ w, match c w with
       | (Ok a, w') => k a w'
       | (Raise e, w') => (Raise e, w')
       end.
Definition lift {A} (o : outcome A) : M A := λ w, (o, w).
Definition get_self : M KrakenAPI := λ w, (Ok (self w), w).
Definition modify_self (f : KrakenAPI → KrakenAPI) : M unit :=
  λ w, (Ok tt, World (f (self w)) (sent w) (exch w)).

(** [try: c except Exception: pass] *)
Definition swallow (c : M unit) : M unit :=
  λ w, match c w with
       | (_, w') => (Ok tt, w')
       end.

#[export] Instance M_ret : MRet M := @ret.
#[export] Instance M_bind : MBind M := λ A B k c, bind c k.

(** [_private_request]: one POST; the exchange's reply decides the result.
    An exchange with no reply left times out. *)
Definition _private_request {T} (e : endpoint T) (data : list (string * field))
    : M T :=
  λ w,
    let '(r, ex') := next_reply e (exch w) in
    let w' := World (self w) (sent w ++ [(endpoint_name e, data)]) ex' in
    match r with
    | Some (Result r) => (Ok r, w')
    | Some (ErrorPayload msg) => (Raise (KrakenError (endpoint_name e) msg), w')
    | Some (Failure msg) => (Raise (TransportError (endpoint_name e) msg), w')
    | None => (Raise (TransportError (endpoint_name e) "timeout"), w')
    end.

(** [place_order]; [price = None] is [None] here. *)
Definition place_order (pair order_type side : string) (volume : Decimal)
    (price : option Decimal) (leverage : Z) : M order_ack :=
  api ← get_self;
  if (max_leverage api <? leverage)%Z then
    raise (LeverageExceeds leverage (max_leverage api))
  else
    let data := [("pair", FStr pair); ("type", FStr side);
                 ("ordertype", FStr order_type); ("volume", FDec volume);
                 ("leverage", FInt leverage)] in
    let data :=
      match price with
      | Some p =>
          if Dec.truthy p && bool_decide (order_type = "limit")
          then data ++ [("price", FDec p)] else data
      | None => data
      end in
    match price with
    | None => raise NoneTimesDecimal
    | Some p =>
        let '(stop_loss, take_profit) :=
          if bool_decide (side = "buy") then
            (Dec.mul p (Dec.sub 1 (stop_loss_pct api)),
             Dec.mul p (Dec.add 1 (take_profit_pct api)))
          else
            (Dec.mul p (Dec.add 1 (stop_loss_pct api)),
             Dec.mul p (Dec.sub 1 (take_profit_pct api))) in
        let data := data ++ [("close[ordertype]", FStr "stop-loss-limit");
                             ("close[price]", FDec stop_loss);
                             ("close[price2]", FDec take_profit)] in
        result ← _private_request AddOrder data;
        match txid result with
        | [] => raise IndexError
        | order_id :: _ =>
            modify_self (set_active_trades
              (<[order_id := Trade pair order_type side volume price
                               stop_loss take_profit]>));;
            ret result
        end
    end.

(** [get_balance], [get_open_positions] *)
Definition get_balance : M (list (string * string)) :=
  _private_request Balance [].
Definition get_open_positions : M (list string) :=
  _private_request OpenPositions [].

(** [sum(Decimal(val) for val in balance.values())], from the int 0. *)
Fixpoint sum_decimals (acc : Decimal) (vals : list string) : outcome Decimal :=
  match vals with
  | [] => Ok acc
  | v :: vs =>
      match Dec.of_string v with
      | Ok d => sum_decimals (Dec.add acc d) vs
      | Raise e => Raise e
      end
  end.

Definition total_equity (balance : list (string * string)) : outcome Decimal :=
  sum_decimals 0%Q (balance.*2).

(** [calculate_optimal_position_size] *)
Definition calculate_optimal_position_size (pair : string)
    (risk_per_trade : Decimal) : M Decimal :=
  balance ← get_balance;
  total_equity ← lift (total_equity balance);
  api ← get_self;
  let max_position := Dec.mul total_equity (max_position_size api) in
  risk_based_size ←
    lift (Dec.div (Dec.mul total_equity risk_per_trade) (stop_loss_pct api));
  ret (Dec.min max_position risk_based_size).

(** *** Market analysis *)

Record analysis := Analysis {
  trend : string;
  rsi : float64;
  macd : float64;
  signal : float64
}.

Definition positive (x : float64) : bool := F64.gtb x (Fin 0).
Definition negative (x : float64) : bool := F64.ltb x (Fin 0).

(** The RSI column: lines 249-253. *)
Definition delta (close : list float64) : list float64 := Pd.diff close.
Definition gain (close : list float64) : list float64 :=
  Pd.rolling_mean 14 (Pd.where_ positive (Fin 0) (delta close)).
Definition loss (close : list float64) : list float64 :=
  Pd.rolling_mean 14 (F64.neg <$> Pd.where_ negative (Fin 0) (delta close)).
Definition rs (close : list float64) : list float64 :=
  zip_with F64.div (gain close) (loss close).
Definition RSI (close : list float64) : list float64 :=
  (λ r, F64.sub (Fin 100) (F64.div (Fin 100) (F64.add (Fin 1) r))) <$> rs close.

Definition SMA_20 (close : list float64) : list float64 := Pd.rolling_mean 20 close.
Definition SMA_50 (close : list float64) : list float64 := Pd.rolling_mean 50 close.

Definition MACD (close : list float64) : list float64 :=
  zip_with F64.sub (Pd.ewm_mean 12 close) (Pd.ewm_mean 26 close).
Definition Signal (close : list float64) : list float64 :=
  Pd.ewm_mean 9 (MACD close).

(** The body of [analyze_market] after the request: the indicator columns
    of the frame and its last row. *)
Definition indicators (rows : list candle) : outcome analysis :=
  let close := (λ c, Fin (c_close c)) <$> rows in
  match Pd.iloc_last (SMA_20 close), Pd.iloc_last (SMA_50 close),
        Pd.iloc_last (RSI close), Pd.iloc_last (MACD close),
        Pd.iloc_last (Signal close) with
  | Ok sma20, Ok sma50, Ok r, Ok m, Ok sg =>
      Ok (Analysis (if F64.gtb sma20 sma50 then "bullish" else "bearish") r m sg)
  | _, _, _, _, _ => Raise IndexError
  end.

(** *** The RSI as the specification words it

    Over the last 14 close-to-close changes (the first row has none and
    counts as no change): the average of the rises, the average of the
    falls. *)
Definition changes (close : list Q) : list Q :=
  match close with
  | [] => []
  | _ :: rest => 0%Q :: zip_with (λ prev cur, (cur - prev)%Q) close rest
  end.

Definition rise (d : Q) : Q := if Dec.ltb 0 d then d else 0%Q.
Definition fall (d : Q) : Q := if Dec.ltb d 0 then (- d)%Q else 0%Q.

Definition Qsum (l : list Q) : Q := foldl Qplus 0%Q l.

Definition window (close : list Q) : list Q :=
  drop (length close - 14) (changes close).

Definition avg_gain (close : list Q) : Q := (Qsum (rise <$> window close) / 14)%Q.
Definition avg_loss (close : list Q) : Q := (Qsum (fall <$> window close) / 14)%Q.

(** [analyze_market] *)
Definition analyze_market (pair : string) (timeframe : Z) : M analysis :=
  ohlc ← _private_request OHLC [("pair", FStr pair); ("interval", FInt timeframe)];
  match assoc pair ohlc with
  | None => raise (KeyError pair)
  | Some rows => lift (indicators rows)
  end.

(** *** Strategy execution *)

(** A strategy configuration dict; [None] stands for an absent key. *)
Record strategy_config := StrategyConfig {
  cfg_type : string;
  cfg_risk_per_trade : option string;
  cfg_leverage : option Z;
  cfg_timeframe : Z
}.

Inductive strategy_result :=
| Success (action : string) (order : order_ack) (a : analysis)
| NoAction (a : analysis).

(** The strategy logic of [execute_strategy]: lines 287-298. *)
Definition strategy_signal (type : string) (a : analysis) : option string :=
  if bool_decide (type = "trend_following") then
    if bool_decide (trend a = "bullish") && F64.ltb (rsi a) (Fin 70) then Some "buy"
    else if bool_decide (trend a = "bearish") && F64.gtb (rsi a) (Fin 30) then Some "sell"
    else None
  else if bool_decide (type = "mean_reversion") then
    if F64.ltb (rsi a) (Fin 30) then Some "buy"
    else if F64.gtb (rsi a) (Fin 70) then Some "sell"
    else None
  else None.

(** [execute_strategy] *)
Definition execute_strategy (pair : string) (cfg : strategy_config)
    : M strategy_result :=
  a ← analyze_market pair 60;
  api ← get_self;
  let current_price := quote_price <$> price_cache api !! pair in
  if negb (from_option Dec.truthy false current_price) then
    raise (NoPriceData pair)
  else
    match strategy_signal (cfg_type cfg) a with
    | Some side =>
        risk ← lift (Dec.of_string (default "0.01" (cfg_risk_per_trade cfg)));
        size ← calculate_optimal_position_size pair risk;
        order ← place_order pair "market" side size None
                  (default 1%Z (cfg_leverage cfg));
        ret (Success side order a)
    | None => ret (NoAction a)
    end.

(** *** The market-data feed *)

(** A received frame, by what [json.loads] makes of it. *)
Inductive message :=
| Garbled                    (* not a JSON document *)
| Document (data : json).

Definition json_loads (m : message) : outcome json :=
  match m with
  | Garbled => Raise JSONDecodeError
  | Document data => Ok data
  end.

Definition is_str (v : json) (s : string) : bool :=
  match v with
  | JStr s' => bool_decide (s' = s)
  | _ => false
  end.

(** [self.price_cache[pair] = {...}]: a list or dict is unhashable; a key
    that is not a string lands outside the string-keyed part. *)
Definition cache_price (pair : json) (q : quote) : M unit :=
  match pair with
  | JStr p => modify_self (set_price_cache (<[p := q]>))
  | JList _ | JDict _ => raise (TypeError "unhashable type")
  | _ => ret tt
  end.

(** The class defines neither [_check_triggered_orders] nor
    [_process_trade_data]: looking them up on [self] raises. *)
Definition _check_triggered_orders (pair : json) : M unit :=
  raise (AttributeError "_check_triggered_orders").
Definition _process_trade_data (pair trade_data : json) : M unit :=
  raise (AttributeError "_process_trade_data").

(** [_handle_websocket_data]: the whole body sits in a [try] whose
    handler only prints. *)
Definition _handle_websocket_data (data : list json) : M unit :=
  swallow (
    if (length data <? 3)%nat then ret tt
    else
      channel_name ← lift (getindex (JList data) 2);
      pair ← lift (getindex (JList data) 3);
      if is_str channel_name "ticker" then
        ticker_data ← lift (getindex (JList data) 1);
        price ← lift (c ← getitem ticker_data "c"; c0 ← getindex c 0; Dec.of_json c0);
        volume ← lift (v ← getitem ticker_data "v"; v1 ← getindex v 1; Dec.of_json v1);
        cache_price pair (Quote price volume);;
        _check_triggered_orders pair
      else if is_str channel_name "trade" then
        trade_data ← lift (getindex (JList data) 1);
        _process_trade_data pair trade_data
      else ret tt).

(** [start_websocket] suspends at three awaits; the environment resumes
    it with the outcome of the pending one.  Two more things can happen
    while it is suspended: the task is cancelled ([CancelledError] is a
    [BaseException], which [except Exception] lets through), or another
    coroutine calls [close()], which clears [_running]. *)
Inductive feed_pc :=
| AwaitConnect          (* in websockets.connect and the two sends *)
| AwaitRecv             (* in websocket.recv() *)
| AwaitSleep            (* in asyncio.sleep(5) *)
| Returned              (* the outer loop has ended *)
| Cancelled.            (* a BaseException went through *)

Inductive feed_event :=
| Connected
| ConnectFailed
| Received (m : message)
| RecvFailed
| Slept
| CancelledError
| CloseCalled.

Inductive feed_action :=
| Connect
| Subscribe (name : string) (pairs : list string)
| Disconnect
| Sleep (seconds : Z).

Record feed := Feed {
  pc : feed_pc;
  fworld : world;
  trace : list feed_action
}.

(** [while self._running:] of the outer loop. *)
Definition outer_loop (w : world) (tr : list feed_action) : feed :=
  if _running (self w) then Feed AwaitConnect w tr else Feed Returned w tr.

(** [while self._running:] of the receive loop; leaving it leaves the
    [async with], which closes the connection. *)
Definition receive_loop (w : world) (tr : list feed_action) : feed :=
  if _running (self w) then Feed AwaitRecv w tr
  else outer_loop w (tr ++ [Disconnect]).

(** [except Exception] of the outer loop: print, then sleep. *)
Definition retry (w : world) (tr : list feed_action) : feed :=
  Feed AwaitSleep w (tr ++ [Sleep 5]).

(** [start_websocket] up to its first suspension: [self._running = True],
    then the outer loop. *)
Definition start_websocket (pairs : list string) (w : world) : feed :=
  outer_loop (World (set_running true (self w)) (sent w) (exch w)) [].

(** [start_websocket] resumed by one event.  An event that does not answer
    the pending await leaves the state as it is.
    - connected: both subscriptions are sent and the receive loop starts;
    - a frame: [json.loads] runs first, outside any handler of its own, so
      its exception goes to the [except] of the outer loop, through the
      [async with] that closes the connection; a decoded list goes to
      [_handle_websocket_data], any other document is skipped;
    - a failure of [connect], [send] or [recv]: the same [except], which
      sleeps five seconds before the outer loop tests [_running] again. *)
Definition feed_step (pairs : list string) (ev : feed_event) (st : feed) : feed :=
  let w := fworld st in
  let tr := trace st in
  match pc st, ev with
  | (Returned | Cancelled), _ => st
  | _, CloseCalled =>
      Feed (pc st) (World (set_running false (self w)) (sent w) (exch w)) tr
  | AwaitRecv, CancelledError => Feed Cancelled w (tr ++ [Disconnect])
  | _, CancelledError => Feed Cancelled w tr
  | AwaitConnect, Connected =>
      receive_loop w (tr ++ [Connect; Subscribe "ticker" pairs;
                             Subscribe "trade" pairs])
  | AwaitConnect, ConnectFailed => retry w tr
  | AwaitRecv, Received m =>
      match json_loads m with
      | Raise _ => retry w (tr ++ [Disconnect])
      | Ok (JList data) =>
          receive_loop (snd (_handle_websocket_data data w)) tr
      | Ok _ => receive_loop w tr
      end
  | AwaitRecv, RecvFailed => retry w (tr ++ [Disconnect])
  | AwaitSleep, Slept => outer_loop w tr
  | _, _ => st
  end.

Definition feed_run (pairs : list string) (evs : list feed_event) (st : feed)
    : feed :=
  foldl (λ st ev, feed_step pairs ev st) st evs.

(** *** Footprints and sample histories *)

(** The requests to [AddOrder] among those sent. *)
Definition orders_sent (w : world) : list request :=
  filter (λ r, r.1 = "AddOrder") (sent w).

(** A computation that places no order: it sends no [AddOrder] request,
    consumes no reply to one and leaves [active_trades] alone. *)
Definition places_no_order {A} (c : M A) : Prop :=
  ∀ w, orders_sent (c w).2 = orders_sent w ∧
       on_AddOrder (exch (c w).2) = on_AddOrder (exch w) ∧
       active_trades (self (c w).2) = active_trades (self w).

(** A computation that touches nothing but the price cache. *)
Definition only_cache {A} (c : M A) : Prop :=
  ∀ w, ∃ cache,
    (c w).2 = World (set_price_cache (λ _, cache) (self w)) (sent w) (exch w).

(** An entry of [delta] against the change it stands for: no value on
    the first row, the change of the close on the others. *)
Definition change_of (x : float64) (q : Q) : Prop :=
  (x = NaN ∧ q = 0%Q) ∨ F64.denotes x q.

(** Candles whose closes rise by one from 1, and candles that all close
    at 1: two histories to run the analysis on. *)
Definition rising (n : nat) : list candle :=
  (λ k, Candle 0 0 0 0 (inject_Z (Z.of_nat k)) 0 0 0) <$> seq 1 n.
Definition flat (n : nat) : list candle :=
  (λ _, Candle 0 0 0 0 1 0 0 0) <$> seq 1 n.

(** *** Further notions for the properties

    The quote a ticker payload carries: [Decimal(ticker_data['c'][0])] and
    [Decimal(ticker_data['v'][1])], evaluated in that order. *)
Definition ticker_quote (ticker_data : json) : outcome quote :=
  price ← (c ← getitem ticker_data "c"; c0 ← getindex c 0; Dec.of_json c0);
  volume ← (v ← getitem ticker_data "v"; v1 ← getindex v 1; Dec.of_json v1);
  Ok (Quote price volume).

(** What a decoded list frame amounts to: a new quote for a pair, or
    nothing. *)
Definition frame_quote (data : list json) : option (string * quote) :=
  match data with
  | _ :: ticker_data :: JStr channel :: JStr instrument :: _ =>
      if bool_decide (channel = "ticker") then
        match ticker_quote ticker_data with
        | Ok q => Some (instrument, q)
        | Raise _ => None
        end
      else None
  | _ => None
  end.

(** [ev] is an outcome of the await the loop is suspended in. *)
Definition answers (p : feed_pc) (ev : feed_event) : bool :=
  match p, ev with
  | AwaitConnect, (Connected | ConnectFailed) => true
  | AwaitRecv, (Received _ | RecvFailed) => true
  | AwaitSleep, Slept => true
  | _, _ => false
  end.

(** The mean of the last [w] closes. *)
Definition mean_last (w : nat) (close : list Q) : Q :=
  (Qsum (drop (length close - w) close) / inject_Z (Z.of_nat w))%Q.

(** The risk limits and the loop flag of the object: what neither orders
    nor feed frames may change. *)
Definition settings (s : KrakenAPI) : Q * Z * Q * Q * bool :=
  (max_position_size s, max_leverage s, stop_loss_pct s, take_profit_pct s,
   _running s).

(** The world once [analyze_market] has made its request for [pair] and
    taken the reply. *)
Definition analysed (pair : string) (w : world) : world :=
  World (self w)
    (sent w ++ [("OHLC", [("pair", FStr pair); ("interval", FInt 60)])])
    (Exchange (on_AddOrder (exch w)) (on_Balance (exch w))
       (on_OpenPositions (exch w)) (tail (on_OHLC (exch w)))).

(** Two worlds with the same account side: the same requests sent, the
    same replies pending, the same open trades and risk limits.  The price
    cache and the loop flag may differ. *)
Definition same_account (w w' : world) : Prop :=
  sent w' = sent w ∧ exch w' = exch w ∧
  active_trades (self w') = active_trades (self w) ∧
  max_position_size (self w') = max_position_size (self w) ∧
  max_leverage (self w') = max_leverage (self w) ∧
  stop_loss_pct (self w') = stop_loss_pct (self w) ∧
  take_profit_pct (self w') = take_profit_pct (self w).

End Kraken.

(** ** class TradingBot (backend/main.py) *)

Module Bot.
Import Kraken.

(** [self.performance_metrics] of a fresh bot: the int 0 under
    [total_trades], [winning_trades] and [losing_trades], [Decimal('0')]
    under the rest.  There is no [peak_equity] key. *)
Definition initial_metrics : gmap string Decimal :=
  list_to_map [("total_trades", 0%Q); ("winning_trades", 0%Q);
               ("losing_trades", 0%Q); ("total_profit", 0%Q);
               ("max_drawdown", 0%Q); ("current_drawdown", 0%Q);
               ("best_trade", 0%Q); ("worst_trade", 0%Q);
               ("average_profit", 0%Q)].

Definition active_pairs : list string := ["XBT/USD"; "ETH/USD"].

(** [self.strategies] as [initialize] fills it, in insertion order. *)
Definition strategies : list (string * strategy_config) :=
  [("trend_following", StrategyConfig "trend_following" (Some "0.01") (Some 3%Z) 60);
   ("mean_reversion", StrategyConfig "mean_reversion" (Some "0.008") (Some 2%Z) 30);
   ("breakout", StrategyConfig "breakout" (Some "0.012") (Some 4%Z) 240)].

(** [metrics[key]] *)
Definition metric (key : string) (metrics : gmap string Decimal) : outcome Decimal :=
  match metrics !! key with
  | Some v => Ok v
  | None => Raise (KeyError key)
  end.

(** The update in [initialize] from a saved snapshot: only keys the dict
    already has are taken. *)
Fixpoint saved_updates (saved : list (string * string))
    (metrics : gmap string Decimal) : outcome (list (string * Decimal)) :=
  match saved with
  | [] => Ok []
  | (k, v) :: saved' =>
      if bool_decide (is_Some (metrics !! k)) then
        d ← Dec.of_string v;
        rest ← saved_updates saved' metrics;
        Ok ((k, d) :: rest)
      else saved_updates saved' metrics
  end.

Definition load_metrics (saved : list (string * string))
    (metrics : gmap string Decimal) : outcome (gmap string Decimal) :=
  updates ← saved_updates saved metrics;
  Ok (foldl (λ m kv, <[kv.1 := kv.2]> m) metrics updates).

(** *** Performance monitoring *)

(** One pass through the body of the loop of [monitor_performance], up to
    the sleep. *)
Definition monitor_iteration (metrics : gmap string Decimal)
    : M (gmap string Decimal) :=
  positions ← get_open_positions;
  balance ← get_balance;
  total_trades ← lift (metric "total_trades" metrics);
  if Dec.gtb total_trades 0 then
    current_equity ← lift (total_equity balance);
    let peak_equity :=
      Dec.max current_equity (default current_equity (metrics !! "peak_equity")) in
    current_drawdown ←
      lift (Dec.div (Dec.sub peak_equity current_equity) peak_equity);
    let metrics := <["current_drawdown" := current_drawdown]> metrics in
    max_drawdown ← lift (metric "max_drawdown" metrics);
    ret (<["max_drawdown" := Dec.max max_drawdown current_drawdown]> metrics)
  else ret metrics.

(** [monitor_performance] for a given number of passes; an exception ends
    the loop. *)
Fixpoint monitor_performance (passes : nat) (metrics : gmap string Decimal)
    : M (gmap string Decimal) :=
  match passes with
  | O => ret metrics
  | S n =>
      metrics ← monitor_iteration metrics;
      monitor_performance n metrics
  end.

(** *** Drawdown tracking as the specification words it

    Peak equity is the running maximum of the observed equity, the
    drawdown is [(peak - current) / peak], and the maximum drawdown is
    the running maximum of the drawdown. *)
Record drawdown_state := Drawdown {
  peak_equity : Decimal;
  current_drawdown : Decimal;
  max_drawdown : Decimal
}.

Definition spec_drawdown_step (st : drawdown_state) (equity : Decimal)
    : drawdown_state :=
  let peak := Dec.max equity (peak_equity st) in
  let dd := Qred ((peak - equity) / peak) in
  Drawdown peak dd (Dec.max (max_drawdown st) dd).

(** A bot with one recorded trade, and an exchange that reports the
    given equities, one per pass, and no open position. *)
Definition traded_metrics : gmap string Decimal :=
  <["total_trades" := 1%Q]> initial_metrics.

Definition reporting (equities : list string) : world :=
  World __init__ []
    (Exchange [] ((λ v, Result [("ZUSD", v)]) <$> equities)
       ((λ _, Result []) <$> equities) []).

(** *** Start-up *)

Inductive task :=
| RunStrategy (pair strategy_name : string)
| MonitorPerformance.

Inductive stage :=
| Initializing          (* inside [initialize], awaiting [start_websocket] *)
| Gathering             (* [run] awaits its tasks *)
| Stopped.              (* [run] has ended; its [finally] block ran *)

Record bot := Mk {
  stage_of : stage;
  feed_of : feed;
  running : bool;
  performance_metrics : gmap string Decimal;
  tasks : list task
}.

(** The rest of [initialize] once [start_websocket] has returned, then
    the task creation of [run].  [saved] is the content of the metrics
    file, if the file exists. *)
Definition after_websocket (saved : option (list (string * string)))
    (f : feed) (metrics : gmap string Decimal) : bot :=
  let '(balance, w) := get_balance (fworld f) in
  let f := Feed (pc f) w (trace f) in
  match balance with
  | Raise _ => Mk Stopped f false metrics []
  | Ok _ =>
      match load_metrics (default [] saved) metrics with
      | Raise _ => Mk Stopped f false metrics []
      | Ok metrics =>
          Mk Gathering f true metrics
             ((pair ← active_pairs;
               name ← strategies.*1;
               [RunStrategy pair name]) ++ [MonitorPerformance])
      end
  end.

(** [run] up to its first suspension. *)
Definition run (w : world) : bot :=
  Mk Initializing (start_websocket active_pairs w) false initial_metrics [].

(** [run] resumed by one event of the feed. *)
Definition run_step (saved : option (list (string * string)))
    (ev : feed_event) (b : bot) : bot :=
  match stage_of b with
  | Initializing =>
      let f := feed_step active_pairs ev (feed_of b) in
      match pc f with
      | Returned => after_websocket saved f (performance_metrics b)
      | Cancelled => Mk Stopped f false (performance_metrics b) []
      | _ => Mk Initializing f (running b) (performance_metrics b) (tasks b)
      end
  | _ => b
  end.

Definition run_steps (saved : option (list (string * string)))
    (evs : list feed_event) (b : bot) : bot :=
  foldl (λ b ev, run_step saved ev b) b evs.

(** While [start_websocket] is suspended with its flag set, [run] is
    still inside [initialize]; a cancellation ends [run] without a task. *)
Definition awaiting_feed (b : bot) : Prop :=
  running b = false ∧ tasks b = [] ∧
  ((stage_of b = Initializing ∧
    _running (self (fworld (feed_of b))) = true ∧
    pc (feed_of b) ≠ Returned ∧ pc (feed_of b) ≠ Cancelled) ∨
   (stage_of b = Stopped ∧ pc (feed_of b) = Cancelled)).

(** The tasks of [run] against its stage: one task per pair and strategy
    and the monitor, with [running] set, while [run] waits in [gather];
    no task and a clear flag at any other time. *)
Definition spawned (b : bot) : Prop :=
  match stage_of b with
  | Gathering =>
      running b = true ∧
      tasks b = [RunStrategy "XBT/USD" "trend_following";
                 RunStrategy "XBT/USD" "mean_reversion";
                 RunStrategy "XBT/USD" "breakout";
                 RunStrategy "ETH/USD" "trend_following";
                 RunStrategy "ETH/USD" "mean_reversion";
                 RunStrategy "ETH/USD" "breakout";
                 MonitorPerformance]
  | _ => running b = false ∧ tasks b = []
  end.

(** *** One cycle of [run_strategy]

    [TradingBot.analyze_market] goes through [get_ohlcv] and the
    indicator helpers, and [run_strategy] through [generate_signal],
    [prepare_features] and [record_trade]; none of them is defined in the
    repository, so they are parameters here. *)
Section RunStrategy.

Context {A F : Type}.

Record trade_signal := { direction : string }.

Variable analyze_market : string → strategy_config → outcome A.
Variable generate_signal : A → strategy_config → option trade_signal.
Variable prepare_features : string → trade_signal → A → outcome F.
Variable record_trade : string → trade_signal → order_ack → A → M unit.

(** [validate_signal_with_ai]: True unless preparing the features
    raises. *)
Definition validate_signal_with_ai (pair : string) (sg : trade_signal)
    (a : A) : bool :=
  is_ok (prepare_features pair sg a).

(** The body of the loop of [run_strategy], up to the order record. *)
Definition run_strategy_cycle (pair strategy_name : string) : M unit :=
  match assoc strategy_name strategies with
  | None => raise (StrategyNotFound strategy_name)
  | Some cfg =>
      a ← lift (analyze_market pair cfg);
      match generate_signal a cfg with
      | Some sg =>
          if validate_signal_with_ai pair sg a then
            risk_text ← lift (match cfg_risk_per_trade cfg with
                              | Some r => Ok r
                              | None => Raise (KeyError "risk_per_trade")
                              end);
            risk ← lift (Dec.of_string risk_text);
            position_size ← calculate_optimal_position_size pair risk;
            leverage ← lift (match cfg_leverage cfg with
                             | Some l => Ok l
                             | None => Raise (KeyError "leverage")
                             end);
            order ← place_order pair "market" (direction sg) position_size
                      None leverage;
            record_trade pair sg order a
          else ret tt
      | None => ret tt
      end
  end.

End RunStrategy.

End Bot.

(** ** class TradingBotRunner (run.py) *)

Module Runner.

(** How one pass through the [try] of [start] ends, and whether a shutdown
    signal has set [should_stop] by the time the loop tests it again.
    Exceptions that are not an [Exception] (a cancellation, a keyboard
    interrupt) leave [start] altogether and are not among the endings; the
    [finally] block is taken to complete, [save_final_state] swallowing
    its own errors. *)
Inductive ending :=
| BotFailed             (* TradingBot() raised *)
| RunFailed             (* bot.run() raised *)
| RunReturned.          (* bot.run() returned *)

Record attempt := Attempt {
  ending_of : ending;
  stop_requested : bool
}.

Inductive action :=
| NewBot
| RunBot
| Wait (seconds : Z)
| SaveState
| CloseBot.

Record runner := Mk {
  has_bot : bool;             (* self.bot is not None *)
  should_stop : bool;
  retry_count : Z;
  log : list action
}.

Definition max_retries : Z := 3.

(** The [finally] block: state is saved and the broker closed if a bot
    has ever been constructed. *)
Definition finally_ (stop : bool) (r : runner) : runner :=
  Mk (has_bot r) (should_stop r || stop) (retry_count r)
     (if has_bot r then log r ++ [SaveState; CloseBot] else log r).

(** The [try] block: the constructor, then [run]. *)
Definition try_ (e : ending) (r : runner) : runner :=
  match e with
  | BotFailed => Mk (has_bot r) (should_stop r) (retry_count r) (log r ++ [NewBot])
  | _ => Mk true (should_stop r) (retry_count r) (log r ++ [NewBot; RunBot])
  end.

(** [start], over the endings of the attempts it makes; it makes no more
    attempts than are listed. *)
Fixpoint start_loop (attempts : list attempt) (r : runner) : runner :=
  match attempts with
  | [] => r
  | a :: rest =>
      if should_stop r || negb (retry_count r <? max_retries)%Z then r
      else
        let r := try_ (ending_of a) r in
        match ending_of a with
        | RunReturned => start_loop rest (finally_ (stop_requested a) r)
        | _ =>
            let n := (retry_count r + 1)%Z in
            if (n <? max_retries)%Z then
              start_loop rest
                (finally_ (stop_requested a)
                   (Mk (has_bot r) (should_stop r) n (log r ++ [Wait (60 * n)])))
            else
              finally_ (stop_requested a)
                (Mk (has_bot r) (should_stop r) n (log r))
        end
  end.

Definition start (attempts : list attempt) : runner :=
  start_loop attempts (Mk false false 0 []).

Definition waits (l : list action) : list Z :=
  omap (λ a, match a with Wait n => Some n | _ => None end) l.

Definition failed (a : attempt) : bool :=
  match ending_of a with RunReturned => false | _ => true end.

End Runner.

(** * Properties *)

(** ** Decimal arithmetic *)

Section DecimalFacts.
Local Open Scope Q_scope.

Lemma add_value (a b : Decimal) : Dec.add a b == a + b.
Proof. apply Qred_correct. Qed.

Lemma sub_value (a b : Decimal) : Dec.sub a b == a - b.
Proof. apply Qred_correct. Qed.

Lemma mul_value (a b : Decimal) : Dec.mul a b == a * b.
Proof. apply Qred_correct. Qed.

Lemma ltb_lt (a b : Decimal) : Dec.ltb a b = true ↔ a < b.
Proof.
  unfold Dec.ltb, Qlt, Qcompare.
  destruct (Z.compare_spec (Qnum a * QDen b) (Qnum b * QDen a));
    split; intros; try discriminate; try lia; reflexivity.
Qed.

Lemma ltb_ge (a b : Decimal) : Dec.ltb a b = false ↔ b <= a.
Proof.
  rewrite <- not_true_iff_false, ltb_lt. split; [apply Qnot_lt_le | apply Qle_not_lt].
Qed.

Lemma min_value (a b : Decimal) : Dec.min a b == Qmin a b.
Proof.
  unfold Dec.min. destruct (Dec.ltb b a) eqn:E.
  - apply ltb_lt in E. rewrite Q.min_r; [reflexivity | apply Qlt_le_weak, E].
  - apply ltb_ge in E. rewrite Q.min_l; [reflexivity | exact E].
Qed.

Lemma min_le_l (a b : Decimal) : Dec.min a b <= a.
Proof. rewrite min_value. apply Q.le_min_l. Qed.

Lemma min_le_r (a b : Decimal) : Dec.min a b <= b.
Proof. rewrite min_value. apply Q.le_min_r. Qed.

Lemma max_self (a : Decimal) : Dec.max a a = a.
Proof. unfold Dec.max. destruct (Dec.gtb a a); reflexivity. Qed.

Lemma div_nonzero (a b : Decimal) : ¬ b == 0 → Dec.div a b = Ok (Qred (a / b)).
Proof.
  intros Hb. unfold Dec.div. destruct (Qeq_bool b 0) eqn:E; [|reflexivity].
  apply Qeq_bool_iff in E. contradiction.
Qed.

Lemma div_self_difference (a : Decimal) : ¬ a == 0 → Dec.div (Dec.sub a a) a = Ok 0.
Proof.
  intros Ha. rewrite div_nonzero by exact Ha. f_equal.
  change 0 with (Qred 0). apply Qred_complete.
  rewrite sub_value. field. exact Ha.
Qed.

End DecimalFacts.

(** ** Order placement *)

Section PlaceOrder.
Import Kraken.
Local Open Scope Q_scope.

Lemma place_order_unfold pair order_type side volume price leverage w :
  (leverage <= max_leverage (self w))%Z →
  place_order pair order_type side volume (Some price) leverage w =
    let api := self w in
    let stop_loss :=
      if bool_decide (side = "buy"%string)
      then Dec.mul price (Dec.sub 1 (stop_loss_pct api))
      else Dec.mul price (Dec.add 1 (stop_loss_pct api)) in
    let take_profit :=
      if bool_decide (side = "buy"%string)
      then Dec.mul price (Dec.add 1 (take_profit_pct api))
      else Dec.mul price (Dec.sub 1 (take_profit_pct api)) in
    let data :=
      ([("pair", FStr pair); ("type", FStr side); ("ordertype", FStr order_type);
        ("volume", FDec volume); ("leverage", FInt leverage)]
       ++ (if Dec.truthy price && bool_decide (order_type = "limit"%string)
           then [("price", FDec price)] else []))
      ++ [("close[ordertype]", FStr "stop-loss-limit");
          ("close[price]", FDec stop_loss); ("close[price2]", FDec take_profit)] in
    match _private_request AddOrder data w with
    | (Ok result, w') =>
        match txid result with
        | [] => (Raise IndexError, w')
        | order_id :: _ =>
            (Ok result,
             World (set_active_trades
                      (<[order_id := Trade pair order_type side volume (Some price)
                                       stop_loss take_profit]>) (self w'))
                   (sent w') (exch w'))
        end
    | (Raise e, w') => (Raise e, w')
    end.
Proof.
  intros Hlev. unfold place_order, mbind, M_bind, bind, get_self.
  apply Z.ltb_ge in Hlev. rewrite Hlev. cbn zeta.
  destruct (bool_decide (side = "buy"%string));
    destruct (Dec.truthy price && bool_decide (order_type = "limit"%string));
    rewrite ?app_nil_r;
    (destruct (_private_request AddOrder _ w) as [[result|e] w']; [|reflexivity]);
    destruct (txid result); reflexivity.
Qed.

(** The leverage check comes first and raises before anything else. *)
Lemma place_order_over_limit pair order_type side volume price leverage w :
  (max_leverage (self w) < leverage)%Z →
  place_order pair order_type side volume price leverage w
  = (Raise (LeverageExceeds leverage (max_leverage (self w))), w).
Proof.
  intros Hlev. unfold place_order, mbind, M_bind, bind, get_self.
  apply Z.ltb_lt in Hlev. rewrite Hlev. reflexivity.
Qed.

(** C1. A call to [place_order] whose leverage exceeds [self.max_leverage]
    (5 after [__init__]) raises the leverage [ValueError], the
    RiskLimitExceeded failure, and leaves the world as it was: no request
    has been sent, no reply consumed, and [active_trades] is unchanged. *)
Theorem place_order_rejects_excess_leverage
    pair order_type side volume price leverage w :
  (max_leverage (self w) < leverage)%Z →
  ∃ e, RiskLimitExceeded e ∧
    place_order pair order_type side volume price leverage w = (Raise e, w) ∧
    sent (place_order pair order_type side volume price leverage w).2 = sent w ∧
    active_trades (self (place_order pair order_type side volume price leverage w).2)
      = active_trades (self w).
Proof.
  intros Hlev. exists (LeverageExceeds leverage (max_leverage (self w))).
  rewrite place_order_over_limit by exact Hlev.
  repeat split. unfold RiskLimitExceeded. eauto.
Qed.

Lemma place_order_rejects_excess_leverage_witness :
  (max_leverage (self (World __init__ [] (Exchange [] [] [] []))) < 6)%Z ∧
  ∃ e, RiskLimitExceeded e ∧
    place_order "XBT/USD" "limit" "buy" 1 (Some 100) 6
      (World __init__ [] (Exchange [] [] [] []))
    = (Raise e, World __init__ [] (Exchange [] [] [] [])).
Proof.
  split; [reflexivity|].
  destruct (place_order_rejects_excess_leverage "XBT/USD" "limit" "buy" 1 (Some 100) 6
              (World __init__ [] (Exchange [] [] [] []))) as (e & He & Hrun & _).
  - reflexivity.
  - exists e. split; [exact He | exact Hrun].
Defined.

Lemma private_request_sent {T} (e : endpoint T) data w :
  sent (_private_request e data w).2 = sent w ++ [(endpoint_name e, data)] ∧
  self (_private_request e data w).2 = self w.
Proof.
  unfold _private_request. destruct (next_reply e (exch w)) as [r ex'].
  destruct r as [[msg|msg|r]|]; split; reflexivity.
Qed.



End PlaceOrder.

(** ** Position sizing *)

Section PositionSize.
Import Kraken.
Local Open Scope Q_scope.

(** What [calculate_optimal_position_size] does once the balance query
    has succeeded and its values have been read. *)
Lemma position_size_unfold pair risk w balance rest equity :
  on_Balance (exch w) = Result balance :: rest →
  total_equity balance = Ok equity →
  ¬ stop_loss_pct (self w) == 0 →
  calculate_optimal_position_size pair risk w =
    (Ok (Dec.min (Dec.mul equity (max_position_size (self w)))
                 (Qred (Dec.mul equity risk / stop_loss_pct (self w)))),
     World (self w) (sent w ++ [("Balance"%string, [])])
       (Exchange (on_AddOrder (exch w)) rest (on_OpenPositions (exch w))
          (on_OHLC (exch w)))).
Proof.
  intros Hreply Hequity Hsl.
  unfold calculate_optimal_position_size, get_balance, mbind, M_bind, bind,
    _private_request, next_reply, lift, get_self, ret.
  rewrite Hreply. cbn. rewrite Hequity. cbn.
  rewrite div_nonzero by exact Hsl. reflexivity.
Qed.



Lemma sum_decimals_error acc vals e :
  sum_decimals acc vals = Raise e → e = InvalidOperation.
Proof.
  revert acc. induction vals as [|v vals IH]; intros acc H; cbn in H.
  - discriminate.
  - unfold Dec.of_string in H.
    destruct (Dec.of_chars _); [eapply IH, H | congruence].
Qed.

(** The class has one RiskLimitExceeded failure, the leverage check of
    [place_order]; position sizing never raises it. *)
Lemma position_size_never_risk_limit pair risk w e :
  (calculate_optimal_position_size pair risk w).1 = Raise e →
  ¬ RiskLimitExceeded e.
Proof.
  intros He [l [m ->]].
  unfold calculate_optimal_position_size, get_balance, mbind, M_bind, bind,
    _private_request, next_reply, lift, get_self, ret in He.
  destruct (pop (on_Balance (exch w))) as [[[msg|msg|balance]|] rest];
    cbn in He; try discriminate.
  destruct (total_equity balance) as [equity|e'] eqn:Hsum; cbn in He.
  - unfold Dec.div in He.
    destruct (Qeq_bool (stop_loss_pct (self w)) 0);
      [destruct (Qeq_bool (Dec.mul equity risk) 0)|]; discriminate.
  - apply sum_decimals_error in Hsum. congruence.
Qed.




End PositionSize.

(** ** Orders without a price *)

Section UnpricedOrders.
Import Kraken Bot.

Lemma places_no_order_ret {A} (a : A) : places_no_order (ret a).
Proof. intros w. repeat split. Qed.

Lemma places_no_order_raise {A} e : places_no_order (@raise A e).
Proof. intros w. repeat split. Qed.

Lemma places_no_order_lift {A} (o : outcome A) : places_no_order (lift o).
Proof. intros w. repeat split. Qed.

Lemma places_no_order_get_self : places_no_order get_self.
Proof. intros w. repeat split. Qed.

Lemma places_no_order_bind {A B} (c : M A) (k : A → M B) :
  places_no_order c → (∀ a, places_no_order (k a)) → places_no_order (c ≫= k).
Proof.
  intros Hc Hk w. unfold mbind, M_bind, bind.
  specialize (Hc w). destruct (c w) as [[a|e] w1]; cbn [snd] in *.
  - destruct (Hk a w1) as (H1 & H2 & H3). destruct Hc as (G1 & G2 & G3).
    repeat split; congruence.
  - exact Hc.
Qed.

Create HintDb no_order.
#[local] Hint Resolve places_no_order_ret places_no_order_raise
  places_no_order_lift places_no_order_get_self : no_order.

(** One [bind] of a computation: its head is closed by the hints, its
    continuation is left for what follows. *)
Ltac no_order_bind := apply places_no_order_bind; [auto with no_order | intros ?].

Lemma places_no_order_request {T} (e : endpoint T) data :
  endpoint_name e ≠ "AddOrder"%string → places_no_order (_private_request e data).
Proof.
  intros Hne w. unfold _private_request.
  assert (on_AddOrder (next_reply e (exch w)).2 = on_AddOrder (exch w)) as Hex.
  { destruct e; cbn in *; try congruence;
      match goal with |- context [pop ?l] => destruct (pop l) end; reflexivity. }
  destruct (next_reply e (exch w)) as [r ex']. cbn [snd] in Hex.
  assert (orders_sent (World (self w) (sent w ++ [(endpoint_name e, data)]) ex')
          = orders_sent w) as Hsent.
  { unfold orders_sent. cbn. rewrite filter_app. cbn.
    rewrite decide_False by exact Hne. apply app_nil_r. }
  destruct r as [[msg|msg|r]|]; repeat split; assumption.
Qed.

(** An order without a price never reaches the exchange, whatever the
    leverage. *)
Lemma place_order_unpriced pair order_type side volume leverage w :
  place_order pair order_type side volume None leverage w =
    (Raise (if (max_leverage (self w) <? leverage)%Z
            then LeverageExceeds leverage (max_leverage (self w))
            else NoneTimesDecimal), w).
Proof.
  unfold place_order, mbind, M_bind, bind, get_self.
  destruct (max_leverage (self w) <? leverage)%Z; reflexivity.
Qed.

Lemma places_no_order_unpriced pair order_type side volume leverage :
  places_no_order (place_order pair order_type side volume None leverage).
Proof. intros w. rewrite place_order_unpriced. repeat split. Qed.

Lemma places_no_order_balance : places_no_order get_balance.
Proof. apply places_no_order_request. discriminate. Qed.

#[local] Hint Resolve places_no_order_unpriced places_no_order_balance : no_order.

Lemma places_no_order_position_size pair risk :
  places_no_order (calculate_optimal_position_size pair risk).
Proof.
  unfold calculate_optimal_position_size.
  do 4 no_order_bind. auto with no_order.
Qed.

Lemma places_no_order_analyze_market pair timeframe :
  places_no_order (Kraken.analyze_market pair timeframe).
Proof.
  unfold Kraken.analyze_market.
  apply places_no_order_bind; [apply places_no_order_request; discriminate|].
  intros ohlc. destruct (assoc pair ohlc); auto with no_order.
Qed.

#[local] Hint Resolve places_no_order_position_size
  places_no_order_analyze_market : no_order.

Lemma places_no_order_execute_strategy pair cfg :
  places_no_order (execute_strategy pair cfg).
Proof.
  unfold execute_strategy. do 2 no_order_bind.
  destruct (negb _); [auto with no_order|].
  destruct (strategy_signal _ _); [|auto with no_order].
  do 3 no_order_bind. auto with no_order.
Qed.

Lemma execute_strategy_never_succeeds pair cfg w side order a :
  (execute_strategy pair cfg w).1 ≠ Ok (Success side order a).
Proof.
  unfold execute_strategy, mbind, M_bind, bind.
  destruct (Kraken.analyze_market pair 60 w) as [[a'|e] w1]; cbn; [|discriminate].
  destruct (negb _); cbn; [discriminate|].
  destruct (strategy_signal _ _); [|cbn; discriminate].
  unfold lift. destruct (Dec.of_string _) as [risk|e]; [|discriminate].
  destruct (calculate_optimal_position_size pair risk w1) as [[size|e] w3];
    [|discriminate].
  rewrite place_order_unpriced. discriminate.
Qed.

Section Cycle.
Context {A F : Type}.
Variable analyze_market : string → strategy_config → outcome A.
Variable generate_signal : A → strategy_config → option trade_signal.
Variable prepare_features : string → trade_signal → A → outcome F.
Variable record_trade : string → trade_signal → order_ack → A → M unit.

Lemma places_no_order_run_strategy_cycle pair strategy_name :
  places_no_order
    (run_strategy_cycle analyze_market generate_signal prepare_features
       record_trade pair strategy_name).
Proof.
  unfold run_strategy_cycle.
  destruct (assoc strategy_name strategies) as [cfg|]; [|auto with no_order].
  no_order_bind.
  destruct (generate_signal _ cfg) as [sg|]; [|auto with no_order].
  destruct (validate_signal_with_ai _ _ _ _); [|auto with no_order].
  do 4 no_order_bind.
  (* the order raises, so [record_trade] is never entered *)
  intros w. unfold mbind, M_bind, bind.
  rewrite place_order_unpriced. repeat split.
Qed.

End Cycle.

(** C4, as the code has it.  A market order without a price never
    reaches the exchange: [place_order] raises with the world untouched,
    the [TypeError] of [None * Decimal] when the leverage is within the
    maximum, the leverage error otherwise.  Both orchestration paths pass
    no price, so neither [execute_strategy] nor a cycle of [run_strategy]
    (whatever the helpers the repository leaves undefined do) sends an
    [AddOrder] request or touches [active_trades], and [execute_strategy]
    never reports success. *)
Theorem signal_orders_never_reach_exchange :
  (∀ pair side volume leverage w,
     place_order pair "market" side volume None leverage w =
       (Raise (if (max_leverage (self w) <? leverage)%Z
               then LeverageExceeds leverage (max_leverage (self w))
               else NoneTimesDecimal), w)) ∧
  (∀ pair cfg w,
     orders_sent (execute_strategy pair cfg w).2 = orders_sent w ∧
     active_trades (self (execute_strategy pair cfg w).2) = active_trades (self w) ∧
     ∀ side order a, (execute_strategy pair cfg w).1 ≠ Ok (Success side order a)) ∧
  (∀ (A F : Type) (analyze_market : string → strategy_config → outcome A)
     (generate_signal : A → strategy_config → option trade_signal)
     (prepare_features : string → trade_signal → A → outcome F)
     (record_trade : string → trade_signal → order_ack → A → M unit)
     pair strategy_name w,
     let cycle := run_strategy_cycle analyze_market generate_signal
                    prepare_features record_trade pair strategy_name in
     orders_sent (cycle w).2 = orders_sent w ∧
     active_trades (self (cycle w).2) = active_trades (self w)).
Proof.
  split; [|split].
  - intros. apply place_order_unpriced.
  - intros pair cfg w.
    destruct (places_no_order_execute_strategy pair cfg w) as (H1 & _ & H3).
    split; [exact H1|]. split; [exact H3|].
    intros. apply execute_strategy_never_succeeds.
  - intros A F am gs pf rt pair name w cycle.
    destruct (places_no_order_run_strategy_cycle am gs pf rt pair name w)
      as (H1 & _ & H3).
    split; assumption.
Qed.

(** C4 as stated fails: with a leverage above the maximum the unpriced
    market order raises the leverage error, not a [TypeError]. *)
Lemma unpriced_order_excess_leverage_is_value_error :
  place_order "XBT/USD" "market" "buy" 1%Q None 6
    (World __init__ [] (Exchange [] [] [] []))
  = (Raise (LeverageExceeds 6 5), World __init__ [] (Exchange [] [] [] [])) ∧
  LeverageExceeds 6 5 ≠ NoneTimesDecimal.
Proof. split; [reflexivity | discriminate]. Qed.

End UnpricedOrders.

(** ** Drawdown tracking *)

Section Drawdown.
Import Kraken Bot.
Local Open Scope Q_scope.

(** No pass stores [peak_equity]: the key stays absent. *)
Lemma monitor_iteration_no_peak metrics w metrics' :
  metrics !! "peak_equity"%string = None →
  (monitor_iteration metrics w).1 = Ok metrics' →
  metrics' !! "peak_equity"%string = None.
Proof.
  intros Hnone. unfold monitor_iteration, mbind, M_bind, bind, lift, ret.
  destruct (get_open_positions w) as [[positions|e] w1]; [|discriminate].
  destruct (get_balance w1) as [[balance|e] w2]; [|discriminate].
  destruct (metric "total_trades" metrics) as [total|e]; [|discriminate].
  destruct (Dec.gtb total 0).
  - destruct (total_equity balance) as [equity|e]; [|discriminate].
    destruct (Dec.div _ _) as [dd|e]; [|discriminate].
    destruct (metric "max_drawdown" _) as [mdd|e]; [|discriminate].
    cbn. intros [= <-]. rewrite !lookup_insert_ne by discriminate. exact Hnone.
  - cbn. intros [= <-]. exact Hnone.
Qed.

(** Nor does loading a saved snapshot bring it in. *)
Lemma saved_updates_known saved metrics updates :
  saved_updates saved metrics = Ok updates →
  Forall (λ kv, is_Some (metrics !! kv.1)) updates.
Proof.
  revert updates. induction saved as [|[k v] saved IH]; intros updates H; cbn in H.
  - injection H as <-. constructor.
  - destruct (bool_decide (is_Some (metrics !! k))) eqn:Hk.
    + cbn in H. destruct (Dec.of_string v) as [d|e]; [|discriminate]. cbn in H.
      destruct (saved_updates saved metrics) as [rest|e]; [|discriminate].
      injection H as <-. constructor; [|apply IH; reflexivity].
      apply bool_decide_eq_true_1 in Hk. exact Hk.
    + apply IH, H.
Qed.

Lemma load_metrics_no_peak saved metrics metrics' :
  metrics !! "peak_equity"%string = None →
  load_metrics saved metrics = Ok metrics' →
  metrics' !! "peak_equity"%string = None.
Proof.
  intros Hnone. unfold load_metrics. cbn.
  destruct (saved_updates saved metrics) as [updates|e] eqn:Hup; [|discriminate].
  intros [= <-]. apply saved_updates_known in Hup.
  assert (Forall (λ kv : string * Decimal, kv.1 ≠ "peak_equity"%string) updates) as Hne.
  { eapply Forall_impl; [exact Hup|]. intros [k d]; cbn. intros [x Hx] ->. congruence. }
  clear Hup. revert metrics Hnone.
  induction Hne as [|[k d] updates Hk _ IH]; intros metrics Hnone; cbn.
  - exact Hnone.
  - apply IH. cbn [fst snd] in *. rewrite lookup_insert_ne by exact Hk. exact Hnone.
Qed.

(** Without the key the peak is the current equity, so the recorded
    drawdown is zero whatever the equity has been before. *)
Lemma monitor_iteration_drawdown_zero metrics w positions balance equity total
    rest_p rest_b :
  on_OpenPositions (exch w) = Result positions :: rest_p →
  on_Balance (exch w) = Result balance :: rest_b →
  total_equity balance = Ok equity →
  ¬ equity == 0 →
  metrics !! "total_trades"%string = Some total → 0 < total →
  metrics !! "peak_equity"%string = None →
  is_Some (metrics !! "max_drawdown"%string) →
  ∃ metrics', (monitor_iteration metrics w).1 = Ok metrics' ∧
              metrics' !! "current_drawdown"%string = Some 0.
Proof.
  intros Hp Hb Heq Hnz Htotal Hpos Hnone [mdd Hmdd].
  unfold monitor_iteration, get_open_positions, get_balance, mbind, M_bind, bind,
    _private_request, next_reply, lift, ret, metric.
  rewrite Hp. cbn. rewrite Hb. cbn.
  rewrite Htotal. cbn.
  apply ltb_lt in Hpos. unfold Dec.gtb. rewrite Hpos, Heq. cbn.
  rewrite Hnone. cbn.
  rewrite max_self, div_self_difference by exact Hnz. cbn.
  rewrite lookup_insert_ne by discriminate. rewrite Hmdd. cbn.
  eexists. split; [reflexivity|].
  rewrite lookup_insert_ne by discriminate. apply lookup_insert_eq.
Qed.

(** C7 at its own scenario.  With one recorded trade and the equities
    10000, 9000, 9500 reported on successive passes, the tracker the
    specification words records the drawdowns 0.10 and 0.05 with a
    maximum of 0.10; [monitor_performance] records 0 after every pass,
    for both, and never a peak. *)
Theorem monitor_performance_records_no_drawdown :
  foldl spec_drawdown_step (Drawdown 0 0 0) [10000; 9000]
    = Drawdown 10000 (Qred 0.10) (Qred 0.10) ∧
  foldl spec_drawdown_step (Drawdown 0 0 0) [10000; 9000; 9500]
    = Drawdown 10000 (Qred 0.05) (Qred 0.10) ∧
  ((monitor_performance 2 traded_metrics (reporting ["10000"; "9000"])).1
     ≫= λ m, Ok (m !! "current_drawdown"%string, m !! "max_drawdown"%string,
                 m !! "peak_equity"%string))
    = Ok (Some 0, Some 0, None) ∧
  ((monitor_performance 3 traded_metrics (reporting ["10000"; "9000"; "9500"])).1
     ≫= λ m, Ok (m !! "current_drawdown"%string, m !! "max_drawdown"%string,
                 m !! "peak_equity"%string))
    = Ok (Some 0, Some 0, None).
Proof. repeat split; vm_compute; reflexivity. Qed.

End Drawdown.

(** ** The market-data feed *)

Section Feed.
Import Kraken.

Lemma only_cache_pure {A} (o : outcome A) : only_cache (λ w, (o, w)).
Proof. intros [[] ? ?]. eexists. reflexivity. Qed.

Lemma only_cache_bind {A B} (c : M A) (k : A → M B) :
  only_cache c → (∀ a, only_cache (k a)) → only_cache (c ≫= k).
Proof.
  intros Hc Hk w. unfold mbind, M_bind, bind.
  destruct (Hc w) as [cache1 H1]. destruct (c w) as [[a|e] w1]; cbn [snd] in *.
  - destruct (Hk a w1) as [cache2 H2]. rewrite H2, H1. eexists. reflexivity.
  - eauto.
Qed.

Lemma only_cache_swallow (c : M unit) : only_cache c → only_cache (swallow c).
Proof.
  intros Hc w. unfold swallow. destruct (Hc w) as [cache H].
  destruct (c w) as [o w1]. eauto.
Qed.

Lemma only_cache_store pair q : only_cache (cache_price pair q).
Proof.
  destruct pair; try apply only_cache_pure.
  intros w. eexists. reflexivity.
Qed.

Lemma only_cache_handler data : only_cache (_handle_websocket_data data).
Proof.
  unfold _handle_websocket_data. apply only_cache_swallow.
  destruct (length data <? 3)%nat; [apply only_cache_pure|].
  apply only_cache_bind; [apply only_cache_pure|]. intros channel_name.
  apply only_cache_bind; [apply only_cache_pure|]. intros pair.
  destruct (is_str channel_name "ticker").
  - repeat (apply only_cache_bind; [apply only_cache_pure|]; intros ?).
    apply only_cache_bind; [apply only_cache_store|]. intros _.
    apply only_cache_pure.
  - destruct (is_str channel_name "trade"); [|apply only_cache_pure].
    apply only_cache_bind; intros; apply only_cache_pure.
Qed.

Lemma handler_keeps_running data w :
  _running (self (_handle_websocket_data data w).2) = _running (self w).
Proof. destruct (only_cache_handler data w) as [cache ->]. reflexivity. Qed.

(** A frame that decodes never costs the connection: whatever the
    document holds, the loop goes back to [recv] on the same connection. *)
Lemma document_keeps_connection pairs data w tr :
  _running (self w) = true →
  pc (feed_step pairs (Received (Document data)) (Feed AwaitRecv w tr)) = AwaitRecv ∧
  trace (feed_step pairs (Received (Document data)) (Feed AwaitRecv w tr)) = tr.
Proof.
  intros Hrun. cbn. unfold receive_loop.
  destruct data; rewrite ?Hrun; try (split; reflexivity).
  rewrite handler_keeps_running, Hrun. split; reflexivity.
Qed.

(** A well-formed ticker frame puts its last price and volume in the
    cache. *)
Lemma ticker_updates_cache pairs w tr channel_id d pair rest
    price cs x volume vs p q :
  _running (self w) = true →
  assoc "c" d = Some (JList (JStr price :: cs)) →
  assoc "v" d = Some (JList (x :: JStr volume :: vs)) →
  Dec.of_string price = Ok p →
  Dec.of_string volume = Ok q →
  feed_step pairs
    (Received (Document (JList (channel_id :: JDict d :: JStr "ticker"
                                  :: JStr pair :: rest))))
    (Feed AwaitRecv w tr)
  = Feed AwaitRecv
      (World (set_price_cache (<[pair := Quote p q]>) (self w)) (sent w) (exch w)) tr.
Proof.
  intros Hrun Hc Hv Hp Hq.
  unfold feed_step, json_loads, receive_loop. cbn [pc fworld trace].
  rewrite handler_keeps_running, Hrun. f_equal.
  unfold _handle_websocket_data, swallow, mbind, M_bind, bind, lift, getitem.
  cbn. rewrite Hc, Hv. cbn. rewrite Hp, Hq. reflexivity.
Qed.

(** C8 at a frame that is not JSON.  [json.loads] sits outside the
    handler's [try]: the exception leaves the receive loop and the
    [async with], so the connection is closed and the loop sleeps five
    seconds; a frame that follows is not read.  Only after the sleep does
    the loop connect and subscribe again. *)
Theorem garbled_frame_drops_connection :
  (∀ pairs w tr,
     feed_step pairs (Received Garbled) (Feed AwaitRecv w tr)
     = Feed AwaitSleep w (tr ++ [Disconnect; Sleep 5])) ∧
  (∀ pairs w tr m,
     feed_step pairs (Received m)
       (feed_step pairs (Received Garbled) (Feed AwaitRecv w tr))
     = Feed AwaitSleep w (tr ++ [Disconnect; Sleep 5])) ∧
  trace (feed_run ["XBT/USD"%string] [Connected; Received Garbled; Slept; Connected]
           (start_websocket ["XBT/USD"%string]
              (World __init__ [] (Exchange [] [] [] []))))
  = [Connect; Subscribe "ticker" ["XBT/USD"%string];
     Subscribe "trade" ["XBT/USD"%string];
     Disconnect; Sleep 5;
     Connect; Subscribe "ticker" ["XBT/USD"%string];
     Subscribe "trade" ["XBT/USD"%string]].
Proof.
  split; [|split]; [| |reflexivity];
    intros; cbn; unfold retry; rewrite <- app_assoc; reflexivity.
Qed.

End Feed.

(** ** Start-up *)

Section StartUp.
Import Kraken Bot.

Lemma run_awaiting_feed w : awaiting_feed (run w).
Proof.
  unfold awaiting_feed, run, start_websocket, outer_loop. cbn.
  repeat split. left. repeat split; discriminate.
Qed.

Lemma run_step_awaiting_feed saved ev b :
  ev ≠ CloseCalled → awaiting_feed b → awaiting_feed (run_step saved ev b).
Proof.
  intros Hev (Hrun & Htasks & [(Hstage & Hflag & Hpc1 & Hpc2) | (Hstage & Hpc)]).
  - destruct b as [st [p w tr] r metrics ts]. cbn in *. subst.
    unfold awaiting_feed, run_step. cbn [stage_of feed_of].
    assert (∀ tr', receive_loop w tr' = Feed AwaitRecv w tr') as Hrecv
      by (intros; unfold receive_loop; rewrite Hflag; reflexivity).
    assert (outer_loop w tr = Feed AwaitConnect w tr) as Houter
      by (unfold outer_loop; rewrite Hflag; reflexivity).
    destruct p, ev as [| |m| | | |]; try congruence; unfold feed_step, retry;
      cbn [pc fworld trace json_loads];
      rewrite ?Hrecv, ?Houter; cbn;
      try (repeat split; solve [left; repeat split; (assumption || discriminate)
                               | right; split; reflexivity]).
    destruct m as [|[| | | |data|]]; cbn; rewrite ?Hrecv; cbn;
      try (repeat split; left; repeat split; (assumption || discriminate)).
    unfold receive_loop. rewrite handler_keeps_running, Hflag. cbn.
    repeat split. left. rewrite handler_keeps_running.
    repeat split; (assumption || discriminate).
  - unfold run_step. rewrite Hstage. unfold awaiting_feed. auto 10.
Qed.

(** C10. [initialize] awaits [start_websocket], which returns only
    once [_running] is cleared.  As long as nothing calls [close()], the
    bot stays inside [initialize] whatever the feed does: [running] is
    never set, and neither a strategy task nor the monitoring task is
    created (a cancellation ends [run], equally without tasks). *)
Theorem initialize_never_completes saved evs w :
  Forall (λ ev, ev ≠ CloseCalled) evs →
  pc (feed_of (run_steps saved evs (run w))) ≠ Returned ∧
  stage_of (run_steps saved evs (run w)) ≠ Gathering ∧
  running (run_steps saved evs (run w)) = false ∧
  tasks (run_steps saved evs (run w)) = [].
Proof.
  intros Hevs.
  assert (awaiting_feed (run_steps saved evs (run w))) as (Hrun & Htasks & Hstage).
  { unfold run_steps. generalize (run w) (run_awaiting_feed w).
    induction Hevs as [|ev evs Hev _ IH]; intros b Hb; cbn.
    - exact Hb.
    - apply IH, run_step_awaiting_feed; assumption. }
  split; [|split; [|split; assumption]].
  - destruct Hstage as [(_ & _ & Hpc & _) | (_ & Hpc)];
      [exact Hpc | rewrite Hpc; discriminate].
  - destruct Hstage as [(-> & _) | (-> & _)]; discriminate.
Qed.

Lemma initialize_never_completes_witness :
  let evs := [Connected; Received Garbled; Slept; Connected; RecvFailed; Slept] in
  let b := run_steps None evs (run (World __init__ [] (Exchange [] [Result []] [] []))) in
  Forall (λ ev, ev ≠ CloseCalled) evs ∧
  pc (feed_of b) ≠ Returned ∧ stage_of b ≠ Gathering ∧
  running b = false ∧ tasks b = [].
Proof.
  intros evs b.
  assert (Forall (λ ev, ev ≠ CloseCalled)
            [Connected; Received Garbled; Slept; Connected; RecvFailed; Slept]) as H
    by (repeat constructor; discriminate).
  split; [exact H|].
  exact (initialize_never_completes None _ _ H).
Defined.

(** The model does leave [initialize] once the flag is cleared: after a
    [close()] the loop returns, the balance is read, and [run] creates its
    seven tasks. *)
Lemma initialize_completes_after_close :
  let b := run_steps None [Connected; CloseCalled; RecvFailed; Slept]
             (run (World __init__ [] (Exchange [] [Result []] [] []))) in
  stage_of b = Gathering ∧ running b = true ∧ length (tasks b) = 7%nat.
Proof. repeat split. Qed.

End StartUp.

(** ** Indicators *)

Section Series.

Lemma length_diff s : length (Pd.diff s) = length s.
Proof.
  destruct s as [|x s]; [reflexivity|]. unfold Pd.diff. cbn [length]. f_equal.
  rewrite length_zip_with. cbn [length]. lia.
Qed.

Lemma length_rolling_mean w s : length (Pd.rolling_mean w s) = length s.
Proof. apply length_imap. Qed.

Lemma length_ewm_from a prev s : length (Pd.ewm_from a prev s) = length s.
Proof. revert prev. induction s; intros; cbn; [reflexivity | f_equal; auto]. Qed.

Lemma length_ewm_mean span s : length (Pd.ewm_mean span s) = length s.
Proof. destruct s; cbn; [reflexivity | f_equal; apply length_ewm_from]. Qed.

Lemma iloc_last_nonempty {A} (s : list A) :
  (0 < length s)%nat → ∃ x, last s = Some x ∧ Pd.iloc_last s = Ok x.
Proof.
  intros Hlen. unfold Pd.iloc_last. rewrite last_lookup.
  destruct (lookup_lt_is_Some_2 s (pred (length s))) as [x Hx]; [lia|].
  rewrite Hx. eauto.
Qed.

(** The last entry of a rolling mean: NaN on a series shorter than the
    window, else the mean of the last [w] entries. *)
Lemma last_rolling_mean w s :
  (0 < length s)%nat →
  last (Pd.rolling_mean w s) =
    Some (if (length s <? w)%nat then NaN
          else F64.div (Pd.sum (take w (drop (length s - w) s))) (F64.of_nat w)).
Proof.
  intros Hlen. rewrite last_lookup, length_rolling_mean.
  unfold Pd.rolling_mean. rewrite list_lookup_imap.
  destruct (lookup_lt_is_Some_2 s (pred (length s))) as [x Hx]; [lia|].
  rewrite Hx. cbn -[Nat.ltb Nat.sub].
  replace (S (pred (length s))) with (length s) by lia. reflexivity.
Qed.

Lemma last_zip_with {A B C} (f : A → B → C) l k x y :
  length l = length k → last l = Some x → last k = Some y →
  last (zip_with f l k) = Some (f x y).
Proof.
  intros Hlen. rewrite !last_lookup, length_zip_with, <- Hlen, Nat.min_id.
  intros Hx Hy. rewrite lookup_zip_with, Hx. cbn. rewrite Hy. reflexivity.
Qed.

End Series.

Section Analysis.
Import Kraken.

Lemma length_gain close : length (gain close) = length close.
Proof.
  unfold gain, Pd.where_, delta.
  rewrite length_rolling_mean, length_fmap. apply length_diff.
Qed.

Lemma length_loss close : length (loss close) = length close.
Proof.
  unfold loss, Pd.where_, delta.
  rewrite length_rolling_mean, !length_fmap. apply length_diff.
Qed.

Lemma length_RSI close : length (RSI close) = length close.
Proof.
  unfold RSI, rs. rewrite length_fmap, length_zip_with, length_gain, length_loss.
  lia.
Qed.

Lemma length_MACD close : length (MACD close) = length close.
Proof. unfold MACD. rewrite length_zip_with, !length_ewm_mean. lia. Qed.

Lemma length_Signal close : length (Signal close) = length close.
Proof. unfold Signal. rewrite length_ewm_mean. apply length_MACD. Qed.

(** On a non-empty frame every column has a last row, and the analysis
    is made of them. *)
Lemma indicators_last_row rows :
  (0 < length rows)%nat →
  let close := (λ c, Fin (c_close c)) <$> rows in
  ∃ sma20 sma50 r m sg,
    last (SMA_20 close) = Some sma20 ∧
    last (SMA_50 close) = Some sma50 ∧
    last (RSI close) = Some r ∧
    indicators rows =
      Ok (Analysis (if F64.gtb sma20 sma50 then "bullish" else "bearish") r m sg).
Proof.
  intros Hlen close.
  assert (0 < length close)%nat as Hclose by (subst close; rewrite length_fmap; lia).
  destruct (iloc_last_nonempty (SMA_20 close)) as (sma20 & H20 & E20);
    [unfold SMA_20; rewrite length_rolling_mean; lia|].
  destruct (iloc_last_nonempty (SMA_50 close)) as (sma50 & H50 & E50);
    [unfold SMA_50; rewrite length_rolling_mean; lia|].
  destruct (iloc_last_nonempty (RSI close)) as (r & Hr & Er);
    [rewrite length_RSI; lia|].
  destruct (iloc_last_nonempty (MACD close)) as (m & Hm & Em);
    [rewrite length_MACD; lia|].
  destruct (iloc_last_nonempty (Signal close)) as (sg & Hsg & Esg);
    [rewrite length_Signal; lia|].
  exists sma20, sma50, r, m, sg. repeat split; try assumption.
  unfold indicators. fold close. rewrite E20, E50, Er, Em, Esg. reflexivity.
Qed.

(** An empty frame has no last row. *)
Lemma indicators_empty : indicators [] = Raise IndexError.
Proof. reflexivity. Qed.

(** With fewer than 50 rows the long average is NaN, every comparison
    with it is False, and the trend is labelled bearish. *)
Lemma indicators_short_history rows :
  (0 < length rows < 50)%nat →
  ∃ a, indicators rows = Ok a ∧ trend a = "bearish"%string.
Proof.
  intros [Hpos Hshort].
  destruct (indicators_last_row rows Hpos) as (sma20 & sma50 & r & m & sg & _ & H50 & _ & ->).
  eexists. split; [reflexivity|]. cbn [trend].
  unfold SMA_50 in H50. rewrite last_rolling_mean in H50
    by (rewrite length_fmap; lia).
  rewrite length_fmap in H50.
  assert ((length rows <? 50)%nat = true) as Hlt by (apply Nat.ltb_lt; lia).
  rewrite Hlt in H50. injection H50 as <-.
  destruct sma20; reflexivity.
Qed.




End Analysis.

Section RelativeStrength.
Import Kraken.
Local Open Scope Q_scope.

Lemma denotes_add x y p q :
  F64.denotes x p → F64.denotes y q → F64.denotes (F64.add x y) (p + q).
Proof.
  intros (a & -> & Ha) (b & -> & Hb). eexists. split; [reflexivity|].
  rewrite Qred_correct, Ha, Hb. reflexivity.
Qed.

Lemma denotes_foldl l ql x q :
  Forall2 F64.denotes l ql → F64.denotes x q →
  F64.denotes (foldl F64.add x l) (foldl Qplus q ql).
Proof.
  intros Hl. revert x q.
  induction Hl as [|y p l ql Hy _ IH]; intros x q Hx; cbn [foldl].
  - exact Hx.
  - apply IH, denotes_add; assumption.
Qed.

Lemma denotes_sum l ql :
  Forall2 F64.denotes l ql → F64.denotes (Pd.sum l) (Qsum ql).
Proof.
  intros Hl. apply denotes_foldl; [exact Hl|]. eexists. split; reflexivity.
Qed.

Lemma denotes_mean x s (n : nat) :
  (0 < n)%nat → F64.denotes x s →
  F64.denotes (F64.div x (F64.of_nat n)) (s / inject_Z (Z.of_nat n)).
Proof.
  intros Hn (a & -> & Ha). unfold F64.div, F64.of_nat.
  destruct (Qeq_bool (inject_Z (Z.of_nat n)) 0) eqn:E.
  - apply Qeq_bool_iff in E. unfold Qeq in E. cbn in E. lia.
  - eexists. split; [reflexivity|]. rewrite Qred_correct, Ha. reflexivity.
Qed.

Lemma rise_compat a q : a == q → rise a == rise q.
Proof.
  intros H. unfold rise, Dec.ltb. rewrite H.
  destruct (0 ?= q); [reflexivity | exact H | reflexivity].
Qed.

Lemma fall_compat a q : a == q → fall a == fall q.
Proof.
  intros H. unfold fall, Dec.ltb. rewrite H.
  destruct (q ?= 0); [reflexivity | rewrite H; reflexivity | reflexivity].
Qed.

Lemma rise_nonneg q : 0 <= rise q.
Proof.
  unfold rise. destruct (Dec.ltb 0 q) eqn:E; [|apply Qle_refl].
  apply ltb_lt in E. apply Qlt_le_weak, E.
Qed.

Lemma fall_nonneg q : 0 <= fall q.
Proof.
  unfold fall. destruct (Dec.ltb q 0) eqn:E; [|apply Qle_refl].
  apply ltb_lt in E. lra.
Qed.

Lemma foldl_nonneg l acc :
  Forall (λ q, 0 <= q) l → 0 <= acc → 0 <= foldl Qplus acc l.
Proof.
  intros Hl. revert acc.
  induction Hl as [|q l Hq _ IH]; intros acc Hacc; cbn [foldl]; [exact Hacc|].
  apply IH. lra.
Qed.

Lemma Qsum_nonneg l : Forall (λ q, 0 <= q) l → 0 <= Qsum l.
Proof. intros Hl. apply foldl_nonneg; [exact Hl | apply Qle_refl]. Qed.

Lemma zip_changes prevs curs :
  Forall2 change_of
    (zip_with (λ prev cur, F64.sub cur prev) (Fin <$> prevs) (Fin <$> curs))
    (zip_with (λ prev cur, cur - prev) prevs curs).
Proof.
  revert curs. induction prevs as [|p prevs IH]; intros [|x curs]; cbn;
    try constructor.
  - right. eexists. split; [reflexivity|].
    rewrite !Qred_correct. reflexivity.
  - apply IH.
Qed.

Lemma delta_changes cs :
  Forall2 change_of (delta (Fin <$> cs)) (changes cs).
Proof.
  destruct cs as [|c rest]; [constructor|].
  change (delta (Fin <$> c :: rest))
    with (NaN :: zip_with (λ prev cur, F64.sub cur prev)
                   (Fin <$> c :: rest) (Fin <$> rest)).
  constructor; [left; split; reflexivity | apply zip_changes].
Qed.

Lemma gains_rise cs :
  Forall2 F64.denotes (Pd.where_ positive (Fin 0) (delta (Fin <$> cs)))
    (rise <$> changes cs).
Proof.
  unfold Pd.where_. apply Forall2_fmap.
  eapply Forall2_impl; [apply delta_changes|].
  intros x q [[-> ->] | (a & -> & Ha)]; cbn.
  - eexists. split; reflexivity.
  - exists (rise a). split; [|apply rise_compat, Ha].
    unfold positive, F64.gtb, F64.ltb, rise, Dec.ltb.
    destruct (0 ?= a); reflexivity.
Qed.

Lemma losses_fall cs :
  Forall2 F64.denotes
    (F64.neg <$> Pd.where_ negative (Fin 0) (delta (Fin <$> cs)))
    (fall <$> changes cs).
Proof.
  unfold Pd.where_. rewrite <- list_fmap_compose. apply Forall2_fmap.
  eapply Forall2_impl; [apply delta_changes|].
  intros x q [[-> ->] | (a & -> & Ha)]; cbn.
  - eexists. split; reflexivity.
  - exists (Qred (fall a)). split; [|rewrite Qred_correct; apply fall_compat, Ha].
    unfold negative, F64.ltb, fall, Dec.ltb.
    destruct (a ?= 0); reflexivity.
Qed.

Lemma length_changes cs : length (changes cs) = length cs.
Proof.
  destruct cs as [|c rest]; [reflexivity|]. unfold changes. cbn [length].
  rewrite length_zip_with. cbn [length]. lia.
Qed.

(** The last 14 entries of a series against those of its rational
    counterpart. *)
Lemma window_mean_denotes (f : Q → Q) s cs :
  (14 <= length cs)%nat →
  Forall2 F64.denotes s (f <$> changes cs) →
  ∃ x, last (Pd.rolling_mean 14 s) = Some x ∧
       F64.denotes x (Qsum (f <$> window cs) / 14).
Proof.
  intros Hlen Hs.
  assert (length s = length cs) as Hn.
  { rewrite (Forall2_length _ _ _ Hs), length_fmap. apply length_changes. }
  rewrite last_rolling_mean by lia. rewrite Hn.
  assert ((length cs <? 14)%nat = false) as -> by (apply Nat.ltb_ge; lia).
  eexists. split; [reflexivity|].
  apply (denotes_mean _ _ 14); [lia|]. apply denotes_sum.
  unfold window. rewrite fmap_drop.
  rewrite <- (take_ge (drop (length cs - 14) (f <$> changes cs)) 14)
    by (rewrite length_drop, length_fmap, length_changes; lia).
  apply Forall2_take, Forall2_drop, Hs.
Qed.

Lemma avg_gain_nonneg cs : 0 <= avg_gain cs.
Proof.
  unfold avg_gain. apply Qle_shift_div_l; [reflexivity|]. rewrite Qmult_0_l.
  apply Qsum_nonneg, Forall_fmap, Forall_forall. intros q _. apply rise_nonneg.
Qed.

Lemma avg_loss_nonneg cs : 0 <= avg_loss cs.
Proof.
  unfold avg_loss. apply Qle_shift_div_l; [reflexivity|]. rewrite Qmult_0_l.
  apply Qsum_nonneg, Forall_fmap, Forall_forall. intros q _. apply fall_nonneg.
Qed.

(** The formula of line 253 on finite averages, by cases on the
    average loss. *)
Lemma rsi_formula_cases g l ga la :
  ga == g → la == l → 0 <= g → 0 <= l →
  let r := F64.sub (Fin 100)
             (F64.div (Fin 100) (F64.add (Fin 1) (F64.div (Fin ga) (Fin la)))) in
  (0 < l → ∃ q, r = Fin q ∧ q == 100 - 100 / (1 + g / l) ∧ 0 <= q ∧ q <= 100) ∧
  (l == 0 → 0 < g → r = Fin 100) ∧
  (l == 0 → g == 0 → r = NaN).
Proof.
  intros Hg Hl Hg0 Hl0 r. subst r. split; [|split].
  - intros Hpos.
    assert (0 <= g / l) as Hratio by (apply Qle_shift_div_l; lra).
    assert (Qeq_bool la 0 = false) as E1.
    { apply not_true_iff_false. intros E. apply Qeq_bool_iff in E. lra. }
    unfold F64.div at 2. rewrite E1. unfold F64.add.
    assert (Qred (1 + Qred (ga / la)) == 1 + g / l) as Hden
      by (rewrite !Qred_correct, Hg, Hl; reflexivity).
    assert (Qeq_bool (Qred (1 + Qred (ga / la))) 0 = false) as E2.
    { apply not_true_iff_false. intros E. apply Qeq_bool_iff in E. lra. }
    unfold F64.div. rewrite E2. unfold F64.sub, F64.neg, F64.add.
    eexists. split; [reflexivity|].
    assert (0 < 100 / (1 + g / l)) as Hlo by (apply Qlt_shift_div_l; lra).
    assert (100 / (1 + g / l) <= 100) as Hhi by (apply Qle_shift_div_r; lra).
    rewrite !Qred_correct, Hg, Hl. split; [|split]; lra.
  - intros Hzero Hpos.
    assert (Qeq_bool la 0 = true) as E1 by (apply Qeq_bool_iff; lra).
    unfold F64.div at 2. rewrite E1.
    assert ((ga ?= 0) = Gt) as -> by (apply Qgt_alt; lra).
    reflexivity.
  - intros Hzero Hflat.
    assert (Qeq_bool la 0 = true) as E1 by (apply Qeq_bool_iff; lra).
    unfold F64.div at 2. rewrite E1.
    assert ((ga ?= 0) = Eq) as -> by (apply Qeq_alt; lra).
    reflexivity.
Qed.




End RelativeStrength.

(** * Further properties of the code *)

(** ** Order placement: failures and footprint *)

Section OrderOutcomes.
Import Kraken.
Local Open Scope Q_scope.

(** When the exchange does not acknowledge the order (a transport
    failure, an error payload, or no answer), [place_order] raises after its
    one request, and the object is as before: no trade is recorded. *)
Theorem place_order_unacknowledged pair order_type side volume price leverage w :
  (leverage <= max_leverage (self w))%Z →
  (∀ ack, head (on_AddOrder (exch w)) ≠ Some (Result ack)) →
  ∃ e data,
    (place_order pair order_type side volume (Some price) leverage w).1 = Raise e ∧
    (∃ msg, e = TransportError "AddOrder" msg ∨ e = KrakenError "AddOrder" msg) ∧
    sent (place_order pair order_type side volume (Some price) leverage w).2
      = sent w ++ [("AddOrder"%string, data)] ∧
    self (place_order pair order_type side volume (Some price) leverage w).2 = self w.
Proof.
  intros Hlev Hreply. rewrite place_order_unfold by exact Hlev. cbn zeta.
  match goal with
  | |- context [_private_request AddOrder ?d w] => set (data := d)
  end.
  unfold _private_request, next_reply.
  destruct (on_AddOrder (exch w)) as [|[msg|msg|ack] rest]; cbn.
  - exists (TransportError "AddOrder" "timeout"), data. eauto 10.
  - exists (TransportError "AddOrder" msg), data. eauto 10.
  - exists (KrakenError "AddOrder" msg), data. eauto 10.
  - exfalso. apply (Hreply ack). reflexivity.
Qed.

Lemma place_order_unacknowledged_witness :
  let w := World __init__ [] (Exchange [ErrorPayload "EOrder:Insufficient funds"] [] [] []) in
  (3 <= max_leverage (self w))%Z ∧
  ∃ e data,
    (place_order "XBT/USD" "limit" "buy" 1 (Some 100) 3 w).1 = Raise e ∧
    (∃ msg, e = TransportError "AddOrder" msg ∨ e = KrakenError "AddOrder" msg) ∧
    sent (place_order "XBT/USD" "limit" "buy" 1 (Some 100) 3 w).2
      = sent w ++ [("AddOrder"%string, data)] ∧
    self (place_order "XBT/USD" "limit" "buy" 1 (Some 100) 3 w).2 = self w.
Proof.
  intros w. split; [intros H; discriminate H|].
  apply (place_order_unacknowledged "XBT/USD" "limit" "buy" 1 100 3 w).
  - intros H; discriminate H.
  - intros ack H. discriminate H.
Defined.

(** An acknowledgement without a transaction id: the request has gone out
    and the exchange has answered, but [result['txid'][0]] raises
    [IndexError] and nothing is recorded in [active_trades]. *)
Theorem place_order_without_txid pair order_type side volume price leverage w
    ack rest :
  (leverage <= max_leverage (self w))%Z →
  on_AddOrder (exch w) = Result ack :: rest →
  txid ack = [] →
  ∃ data,
    (place_order pair order_type side volume (Some price) leverage w).1
      = Raise IndexError ∧
    sent (place_order pair order_type side volume (Some price) leverage w).2
      = sent w ++ [("AddOrder"%string, data)] ∧
    on_AddOrder (exch (place_order pair order_type side volume (Some price)
                         leverage w).2) = rest ∧
    active_trades (self (place_order pair order_type side volume (Some price)
                           leverage w).2) = active_trades (self w).
Proof.
  intros Hlev Hreply Htxid. rewrite place_order_unfold by exact Hlev. cbn zeta.
  match goal with
  | |- context [_private_request AddOrder ?d w] => set (data := d)
  end.
  unfold _private_request, next_reply. rewrite Hreply. cbn. rewrite Htxid. cbn.
  exists data. repeat split.
Qed.

Lemma place_order_without_txid_witness :
  let w := World __init__ [] (Exchange [Result (OrderAck [] "buy 1 XBTUSD")] [] [] []) in
  (3 <= max_leverage (self w))%Z ∧
  ∃ data,
    (place_order "XBT/USD" "limit" "buy" 1 (Some 100) 3 w).1 = Raise IndexError ∧
    sent (place_order "XBT/USD" "limit" "buy" 1 (Some 100) 3 w).2
      = sent w ++ [("AddOrder"%string, data)] ∧
    on_AddOrder (exch (place_order "XBT/USD" "limit" "buy" 1 (Some 100) 3 w).2) = [] ∧
    active_trades (self (place_order "XBT/USD" "limit" "buy" 1 (Some 100) 3 w).2)
      = active_trades (self w).
Proof.
  intros w. split; [intros H; discriminate H|].
  apply (place_order_without_txid "XBT/USD" "limit" "buy" 1 100 3 w
           (OrderAck [] "buy 1 XBTUSD") []).
  - intros H; discriminate H.
  - reflexivity.
  - reflexivity.
Defined.

(** Whatever its arguments and whatever the exchange answers, [place_order]
    leaves the risk limits, the loop flag, the price cache and the replies
    of the other endpoints alone, and changes [active_trades] at most under
    the first transaction id of an acknowledged order. *)
Theorem place_order_footprint pair order_type side volume price leverage w :
  let r := place_order pair order_type side volume price leverage w in
  settings (self r.2) = settings (self w) ∧
  price_cache (self r.2) = price_cache (self w) ∧
  on_Balance (exch r.2) = on_Balance (exch w) ∧
  on_OpenPositions (exch r.2) = on_OpenPositions (exch w) ∧
  on_OHLC (exch r.2) = on_OHLC (exch w) ∧
  ∀ id, active_trades (self r.2) !! id = active_trades (self w) !! id ∨
        ∃ ack, r.1 = Ok ack ∧ head (txid ack) = Some id.
Proof.
  cbv zeta. destruct price as [p|].
  2:{ rewrite place_order_unpriced. cbn. auto 10. }
  destruct (Z.lt_ge_cases (max_leverage (self w)) leverage) as [Hlev|Hlev].
  { rewrite place_order_over_limit by exact Hlev. cbn. auto 10. }
  rewrite place_order_unfold by exact Hlev. cbn zeta.
  unfold _private_request, next_reply.
  destruct (pop (on_AddOrder (exch w))) as [[[msg|msg|ack]|] rest]; cbn; auto 10.
  destruct (txid ack) as [|order_id ids] eqn:Htxid; cbn; auto 10.
  repeat split. intros id. destruct (decide (order_id = id)) as [->|Hne].
  - right. exists ack. rewrite Htxid. split; reflexivity.
  - left. apply lookup_insert_ne, Hne.
Qed.

End OrderOutcomes.

(** ** Position sizing: footprint, failures, and what the limits amount to *)

Section SizingOutcomes.
Import Kraken.
Local Open Scope Q_scope.

(** [calculate_optimal_position_size] is a pure query: whatever comes of
    it, it has sent exactly one [Balance] request with an empty body and
    has left the object untouched. *)
Theorem position_size_footprint pair risk w :
  sent (calculate_optimal_position_size pair risk w).2
    = sent w ++ [("Balance"%string, [])] ∧
  self (calculate_optimal_position_size pair risk w).2 = self w ∧
  on_Balance (exch (calculate_optimal_position_size pair risk w).2)
    = tail (on_Balance (exch w)).
Proof.
  unfold calculate_optimal_position_size, get_balance, mbind, M_bind, bind,
    _private_request, next_reply, lift, get_self, ret.
  destruct (on_Balance (exch w)) as [|[msg|msg|balance] rest]; cbn; auto.
  destruct (total_equity balance) as [equity|e]; cbn; auto.
  destruct (Dec.div _ _); cbn; auto.
Qed.




Lemma sum_decimals_values acc vals ds :
  Forall2 (λ v d, Dec.of_string v = Ok d) vals ds →
  ∃ e, sum_decimals acc vals = Ok e ∧ e == foldl Qplus acc ds.
Proof.
  intros H. revert acc. induction H as [|v d vals ds Hv _ IH]; intros acc; cbn.
  - exists acc. split; reflexivity.
  - rewrite Hv. destruct (IH (Dec.add acc d)) as (e & -> & He).
    exists e. split; [reflexivity|]. rewrite He.
    clear. generalize (add_value acc d). generalize (Dec.add acc d) (acc + d).
    induction ds as [|x ds IH]; intros a b Hab; cbn; [exact Hab|].
    apply IH. rewrite Hab. reflexivity.
Qed.

Lemma sum_decimals_bad acc vals :
  Exists (λ v, ∀ d, Dec.of_string v ≠ Ok d) vals →
  sum_decimals acc vals = Raise InvalidOperation.
Proof.
  intros H. revert acc. induction H as [v vals Hv | v vals _ IH]; intros acc; cbn.
  - unfold Dec.of_string in *. destruct (Dec.of_chars _) as [d|]; [|reflexivity].
    exfalso. apply (Hv d). reflexivity.
  - unfold Dec.of_string. destruct (Dec.of_chars _); [apply IH | reflexivity].
Qed.





End SizingOutcomes.

(** ** Market analysis: outcomes and what the indicators compare *)

Section AnalysisOutcomes.
Import Kraken.
Local Open Scope Q_scope.

Lemma analyze_market_unfold pair timeframe w ohlc rest :
  on_OHLC (exch w) = Result ohlc :: rest →
  analyze_market pair timeframe w =
    (match assoc pair ohlc with
     | None => Raise (KeyError pair)
     | Some rows => indicators rows
     end,
     World (self w)
       (sent w ++ [("OHLC"%string,
                    [("pair"%string, FStr pair); ("interval"%string, FInt timeframe)])])
       (Exchange (on_AddOrder (exch w)) (on_Balance (exch w))
          (on_OpenPositions (exch w)) rest)).
Proof.
  intros Hreply.
  unfold analyze_market, mbind, M_bind, bind, _private_request, next_reply,
    lift, raise.
  rewrite Hreply. cbn. destruct (assoc pair ohlc); reflexivity.
Qed.



Lemma fin_denotes cs : Forall2 F64.denotes (Fin <$> cs) cs.
Proof.
  induction cs as [|c cs IH]; constructor; [|exact IH].
  eexists. split; reflexivity.
Qed.

(** The last entry of a rolling mean over finite entries is the mean of
    the last [w] of them. *)
Lemma rolling_mean_last_denotes (w : nat) s qs :
  (0 < w <= length qs)%nat →
  Forall2 F64.denotes s qs →
  ∃ x, last (Pd.rolling_mean w s) = Some x ∧ F64.denotes x (mean_last w qs).
Proof.
  intros [Hw Hlen] Hs.
  assert (length s = length qs) as Hn by (apply (Forall2_length _ _ _ Hs)).
  rewrite last_rolling_mean by lia. rewrite Hn.
  assert ((length qs <? w)%nat = false) as -> by (apply Nat.ltb_ge; lia).
  eexists. split; [reflexivity|].
  unfold mean_last. apply denotes_mean; [exact Hw|]. apply denotes_sum.
  rewrite <- (take_ge (drop (length qs - w) qs) w) by (rewrite length_drop; lia).
  apply Forall2_take, Forall2_drop, Hs.
Qed.



End AnalysisOutcomes.

(** ** Strategy execution: when nothing is done *)

Section StrategyOutcomes.
Import Kraken.
Local Open Scope Q_scope.

Lemma execute_strategy_analysed pair cfg w ohlc rest rows a :
  on_OHLC (exch w) = Result ohlc :: rest →
  assoc pair ohlc = Some rows →
  indicators rows = Ok a →
  execute_strategy pair cfg w =
    if negb (from_option Dec.truthy false
               (quote_price <$> price_cache (self w) !! pair))
    then (Raise (NoPriceData pair), analysed pair w)
    else
      match strategy_signal (cfg_type cfg) a with
      | Some side =>
          (risk ← lift (Dec.of_string (default "0.01"%string (cfg_risk_per_trade cfg)));
           size ← calculate_optimal_position_size pair risk;
           order ← place_order pair "market" side size None
                     (default 1%Z (cfg_leverage cfg));
           ret (Success side order a)) (analysed pair w)
      | None => (Ok (NoAction a), analysed pair w)
      end.
Proof.
  intros Hreply Hrows Ha.
  unfold execute_strategy, mbind at 1, M_bind at 1, bind at 1.
  rewrite (analyze_market_unfold _ _ _ _ _ Hreply), Hrows, Ha.
  unfold analysed. rewrite Hreply. cbn [tail].
  unfold mbind at 1, M_bind at 1, bind at 1, get_self. cbn [self].
  destruct (negb _); [reflexivity|].
  destruct (strategy_signal _ _); reflexivity.
Qed.

(** Without a usable price in the cache (no quote for the pair, or a quote
    whose price is zero) [execute_strategy] raises its "no price data"
    error, after the analysis and before any sizing: the OHLC request is
    the only one sent. *)
Theorem execute_strategy_without_price pair cfg w ohlc rest rows a :
  on_OHLC (exch w) = Result ohlc :: rest →
  assoc pair ohlc = Some rows →
  indicators rows = Ok a →
  (price_cache (self w) !! pair = None ∨
   ∃ q, price_cache (self w) !! pair = Some q ∧ quote_price q == 0) →
  execute_strategy pair cfg w = (Raise (NoPriceData pair), analysed pair w).
Proof.
  intros Hreply Hrows Ha Hprice.
  rewrite (execute_strategy_analysed _ _ _ _ _ _ _ Hreply Hrows Ha).
  destruct Hprice as [-> | (q & -> & Hq)]; [reflexivity|].
  cbn. unfold Dec.truthy. apply Qeq_bool_iff in Hq. rewrite Hq. reflexivity.
Qed.

Lemma execute_strategy_without_price_witness :
  let w := World __init__ []
             (Exchange [] [] [] [Result [("XBT/USD"%string, rising 20)]]) in
  (∃ a, indicators (rising 20) = Ok a) ∧
  execute_strategy "XBT/USD"
    (StrategyConfig "trend_following" (Some "0.01"%string) (Some 3%Z) 60) w
  = (Raise (NoPriceData "XBT/USD"), analysed "XBT/USD" w).
Proof.
  intros w.
  destruct (indicators_last_row (rising 20)) as (? & ? & ? & ? & ? & _ & _ & _ & Ha);
    [cbn; lia|].
  split; [eexists; exact Ha|].
  exact (execute_strategy_without_price "XBT/USD" _ w
           [("XBT/USD"%string, rising 20)] [] (rising 20) _
           eq_refl eq_refl Ha (or_introl eq_refl)).
Defined.

Lemma execute_strategy_no_signal pair cfg w ohlc rest rows a q :
  on_OHLC (exch w) = Result ohlc :: rest →
  assoc pair ohlc = Some rows →
  indicators rows = Ok a →
  price_cache (self w) !! pair = Some q → ¬ quote_price q == 0 →
  strategy_signal (cfg_type cfg) a = None →
  execute_strategy pair cfg w = (Ok (NoAction a), analysed pair w).
Proof.
  intros Hreply Hrows Ha Hq Hnz Hsig.
  rewrite (execute_strategy_analysed _ _ _ _ _ _ _ Hreply Hrows Ha), Hq, Hsig.
  cbn. unfold Dec.truthy.
  destruct (Qeq_bool (quote_price q) 0) eqn:E; [|reflexivity].
  apply Qeq_bool_iff in E. contradiction.
Qed.

(** A NaN fails every comparison, so an analysis whose RSI is NaN gives no
    signal under any strategy. *)
Lemma nan_rsi_gives_no_signal type a :
  rsi a = NaN → strategy_signal type a = None.
Proof.
  intros H. unfold strategy_signal. rewrite H. cbn.
  rewrite !andb_false_r. repeat case_bool_decide; reflexivity.
Qed.

(** With fewer than 14 candles the RSI of the last row is NaN. *)
Lemma indicators_rsi_nan rows :
  (0 < length rows < 14)%nat → ∃ a, indicators rows = Ok a ∧ rsi a = NaN.
Proof.
  intros [Hpos Hshort].
  destruct (indicators_last_row rows Hpos) as (sma20 & sma50 & r & m & sg & _ & _ & Hr & ->).
  eexists. split; [reflexivity|]. cbn [rsi].
  set (close := (λ c : candle, Fin (c_close c)) <$> rows) in *.
  assert (length close = length rows) as Hclose by (subst close; apply length_fmap).
  assert (last (gain close) = Some NaN) as Hg.
  { pose proof (length_gain close) as Hlg. unfold gain in *.
    rewrite length_rolling_mean in Hlg.
    rewrite last_rolling_mean, Hlg, Hclose by lia.
    assert ((length rows <? 14)%nat = true) as -> by (apply Nat.ltb_lt; lia).
    reflexivity. }
  assert (last (loss close) = Some NaN) as Hl.
  { pose proof (length_loss close) as Hll. unfold loss in *.
    rewrite length_rolling_mean in Hll.
    rewrite last_rolling_mean, Hll, Hclose by lia.
    assert ((length rows <? 14)%nat = true) as -> by (apply Nat.ltb_lt; lia).
    reflexivity. }
  unfold RSI, rs in Hr. rewrite fmap_last in Hr.
  rewrite (last_zip_with F64.div _ _ NaN NaN) in Hr;
    [|rewrite length_gain, length_loss; reflexivity | exact Hg | exact Hl].
  injection Hr as <-. reflexivity.
Qed.



(** A strategy of any type but [trend_following] and [mean_reversion]
    (the configured [breakout], for one) never trades through
    [execute_strategy]: it analyses the market and reports no action. *)
Theorem execute_strategy_idle_on_other_types pair cfg w ohlc rest rows a q :
  on_OHLC (exch w) = Result ohlc :: rest →
  assoc pair ohlc = Some rows →
  indicators rows = Ok a →
  price_cache (self w) !! pair = Some q → ¬ quote_price q == 0 →
  cfg_type cfg ≠ "trend_following"%string →
  cfg_type cfg ≠ "mean_reversion"%string →
  execute_strategy pair cfg w = (Ok (NoAction a), analysed pair w).
Proof.
  intros Hreply Hrows Ha Hq Hnz Ht Hm.
  apply (execute_strategy_no_signal _ _ _ _ _ _ _ _ Hreply Hrows Ha Hq Hnz).
  unfold strategy_signal.
  rewrite !bool_decide_eq_false_2 by assumption. reflexivity.
Qed.

Lemma execute_strategy_idle_on_other_types_witness :
  let w := World (set_price_cache (<["XBT/USD"%string := Quote 100 1]>) __init__) []
             (Exchange [] [] [] [Result [("XBT/USD"%string, rising 20)]]) in
  ¬ quote_price (Quote 100 1) == 0 ∧
  ∃ a, indicators (rising 20) = Ok a ∧
       execute_strategy "XBT/USD"
         (StrategyConfig "breakout" (Some "0.012"%string) (Some 4%Z) 240) w
       = (Ok (NoAction a), analysed "XBT/USD" w).
Proof.
  intros w.
  assert (¬ quote_price (Quote 100 1) == 0) as Hnz by (intros H; discriminate H).
  destruct (indicators_last_row (rising 20)) as (? & ? & ? & ? & ? & _ & _ & _ & Ha);
    [cbn; lia|].
  split; [exact Hnz|]. eexists. split; [exact Ha|].
  apply (execute_strategy_idle_on_other_types "XBT/USD" _ w
           [("XBT/USD"%string, rising 20)] [] (rising 20) _ (Quote 100 1)
           eq_refl eq_refl Ha eq_refl Hnz); discriminate.
Defined.

End StrategyOutcomes.

(** ** The market-data feed *)

Section FeedOutcomes.
Import Kraken.


(** After a failed [recv], or a frame that is not JSON, the loop closes the
    connection, sleeps five seconds, connects again and subscribes to both
    channels again; the cache, the trades and the limits carry over. *)
Theorem feed_reconnects_after_failure pairs ev w tr :
  _running (self w) = true →
  ev = RecvFailed ∨ ev = Received Garbled →
  feed_run pairs [ev; Slept; Connected] (Feed AwaitRecv w tr) =
    Feed AwaitRecv w
      (tr ++ [Disconnect; Sleep 5; Connect;
              Subscribe "ticker" pairs; Subscribe "trade" pairs]).
Proof.
  intros Hrun [-> | ->]; cbn; unfold outer_loop; rewrite Hrun; cbn;
    unfold receive_loop; rewrite Hrun, <- !app_assoc; reflexivity.
Qed.

Lemma feed_reconnects_after_failure_witness :
  let w := World (set_running true __init__) [] (Exchange [] [] [] []) in
  feed_run ["XBT/USD"%string] [Received Garbled; Slept; Connected]
    (Feed AwaitRecv w [Connect]) =
    Feed AwaitRecv w
      ([Connect] ++ [Disconnect; Sleep 5; Connect;
                     Subscribe "ticker" ["XBT/USD"%string];
                     Subscribe "trade" ["XBT/USD"%string]]).
Proof.
  intros w.
  exact (feed_reconnects_after_failure ["XBT/USD"%string] (Received Garbled) w
           [Connect] eq_refl (or_intror eq_refl)).
Defined.

(** Once [close()] has cleared the flag, the loop ends at the next test of
    it: the pending await is answered and [start_websocket] returns, after
    the five-second sleep if that answer was a failure.  It never connects
    again. *)
Theorem close_ends_feed pairs st ev :
  answers (pc st) ev = true →
  let st1 := feed_step pairs ev (feed_step pairs CloseCalled st) in
  let st2 := feed_step pairs Slept st1 in
  pc st2 = Returned ∧
  (pc st1 = Returned ∨ pc st1 = AwaitSleep) ∧
  (pc st ≠ AwaitConnect → Connect ∉ drop (length (trace st)) (trace st2)).
Proof.
  destruct st as [p w tr]. cbn [pc].
  assert (∀ l : list feed_action, drop (length tr) (tr ++ l) = l) as Hdrop.
  { intros l. rewrite drop_app_length. reflexivity. }
  assert (drop (length tr) tr = []) as Hnil by apply drop_all.
  destruct p, ev as [| |[|[]]| | | |]; try discriminate; intros _; cbn;
    unfold receive_loop, outer_loop; cbn;
    rewrite ?handler_keeps_running; cbn;
    rewrite <- ?app_assoc, ?Hdrop, ?Hnil;
    (split; [reflexivity|]); (split; [auto|]);
    intros Hpc; try congruence; cbn;
    rewrite ?elem_of_cons, ?elem_of_nil; intuition discriminate.
Qed.

Lemma close_ends_feed_witness :
  let st := Feed AwaitRecv
              (World (set_running true __init__) [] (Exchange [] [] [] []))
              [Connect] in
  let st1 := feed_step ["XBT/USD"%string] RecvFailed
               (feed_step ["XBT/USD"%string] CloseCalled st) in
  let st2 := feed_step ["XBT/USD"%string] Slept st1 in
  pc st2 = Returned ∧
  (pc st1 = Returned ∨ pc st1 = AwaitSleep) ∧
  (pc st ≠ AwaitConnect → Connect ∉ drop (length (trace st)) (trace st2)).
Proof.
  exact (close_ends_feed ["XBT/USD"%string]
           (Feed AwaitRecv
              (World (set_running true __init__) [] (Exchange [] [] [] []))
              [Connect])
           RecvFailed eq_refl).
Defined.

Lemma same_account_refl w : same_account w w.
Proof. repeat split. Qed.

Lemma same_account_trans w1 w2 w3 :
  same_account w1 w2 → same_account w2 w3 → same_account w1 w3.
Proof.
  unfold same_account. intros (?&?&?&?&?&?&?) (?&?&?&?&?&?&?).
  repeat split; congruence.
Qed.

Lemma feed_step_same_account pairs ev st :
  same_account (fworld st) (fworld (feed_step pairs ev st)).
Proof.
  destruct st as [p w tr].
  assert (∀ w' tr', same_account w w' →
            same_account w (fworld (outer_loop w' tr'))) as Houter.
  { intros w' tr' H. unfold outer_loop. destruct (_running (self w')); exact H. }
  assert (∀ w' tr', same_account w w' →
            same_account w (fworld (receive_loop w' tr'))) as Hrecv.
  { intros w' tr' H. unfold receive_loop.
    destruct (_running (self w')); [exact H | apply Houter, H]. }
  destruct p, ev as [| |[|[]]| | | |]; cbn [feed_step pc fworld trace json_loads];
    try apply same_account_refl;
    try (apply Houter, same_account_refl);
    try (apply Hrecv, same_account_refl);
    try (repeat split; fail).
  apply Hrecv. cbn [snd].
  destruct (only_cache_handler l w) as [cache ->]. repeat split.
Qed.

(** The feed only ever watches: whatever it receives, and however often
    it reconnects, it sends no request to the REST interface, takes none of
    its replies, and changes neither the open trades nor a risk limit. *)
Theorem feed_never_touches_account pairs evs st :
  same_account (fworld st) (fworld (feed_run pairs evs st)).
Proof.
  revert st. induction evs as [|ev evs IH]; intros st.
  - apply same_account_refl.
  - cbn. eapply same_account_trans; [apply feed_step_same_account | apply IH].
Qed.

End FeedOutcomes.

(** ** The bot: monitoring and start-up *)

Section BotOutcomes.
Import Kraken Bot.
Local Open Scope Q_scope.

(** The requests a monitoring pass may send. *)
Lemma monitor_iteration_observes metrics w :
  let r := monitor_iteration metrics w in
  self r.2 = self w ∧
  (∃ l, sent r.2 = sent w ++ l ∧
        Forall (λ q, q.1 = "OpenPositions"%string ∨ q.1 = "Balance"%string) l) ∧
  (∀ metrics', r.1 = Ok metrics' →
     ∀ k, k ≠ "current_drawdown"%string → k ≠ "max_drawdown"%string →
          metrics' !! k = metrics !! k).
Proof.
  cbn zeta. unfold monitor_iteration, mbind, M_bind, bind, get_open_positions,
    get_balance.
  destruct (private_request_sent OpenPositions [] w) as [Hs1 Hself1].
  destruct (_private_request OpenPositions [] w) as [[positions|e] w1];
    cbn [fst snd] in *.
  2: { split; [exact Hself1|]. split; [|discriminate].
       eexists. split; [exact Hs1|]. constructor; [left; reflexivity|constructor]. }
  destruct (private_request_sent Balance [] w1) as [Hs2 Hself2].
  assert (∀ (o : outcome (gmap string Decimal)) w2,
            sent w2 = sent w1 ++ [("Balance"%string, [])] → self w2 = self w1 →
            self w2 = self w ∧
            ∃ l, sent w2 = sent w ++ l ∧
                 Forall (λ q : request, q.1 = "OpenPositions"%string
                                        ∨ q.1 = "Balance"%string) l) as Hframe.
  { intros _ w2 Hs Hself. split; [congruence|].
    eexists. rewrite Hs, Hs1, <- app_assoc. split; [reflexivity|].
    constructor; [left; reflexivity|].
    constructor; [right; reflexivity|constructor]. }
  destruct (_private_request Balance [] w1) as [[balance|e] w2];
    cbn [fst snd] in *.
  2: { destruct (Hframe (Ok metrics) w2 Hs2 Hself2) as [? ?].
       split; [assumption|]. split; [assumption|discriminate]. }
  destruct (Hframe (Ok metrics) w2 Hs2 Hself2) as [Hself Hsent].
  unfold lift, ret.
  destruct (metric "total_trades" metrics) as [total|e]; cbn [fst snd];
    [|split; [assumption|]; split; [assumption|discriminate]].
  destruct (Dec.gtb total 0); cbn [fst snd].
  - destruct (total_equity balance) as [equity|e]; cbn [fst snd];
      [|split; [assumption|]; split; [assumption|discriminate]].
    destruct (Dec.div _ _) as [dd|e]; cbn [fst snd];
      [|split; [assumption|]; split; [assumption|discriminate]].
    destruct (metric "max_drawdown" _) as [mdd|e]; cbn [fst snd];
      [|split; [assumption|]; split; [assumption|discriminate]].
    split; [assumption|]. split; [assumption|].
    intros metrics' [= <-] k Hc Hm.
    rewrite !lookup_insert_ne by congruence. reflexivity.
  - split; [assumption|]. split; [assumption|].
    intros metrics' [= <-] k _ _. reflexivity.
Qed.

(** [monitor_performance] only observes: however many passes it makes, it
    sends nothing but position and balance queries, leaves the broker
    object as it is, and of the metrics it changes at most
    [current_drawdown] and [max_drawdown]. *)
Theorem monitor_performance_only_observes passes metrics w :
  let r := monitor_performance passes metrics w in
  self r.2 = self w ∧
  (∃ l, sent r.2 = sent w ++ l ∧
        Forall (λ q, q.1 = "OpenPositions"%string ∨ q.1 = "Balance"%string) l) ∧
  (∀ metrics', r.1 = Ok metrics' →
     ∀ k, k ≠ "current_drawdown"%string → k ≠ "max_drawdown"%string →
          metrics' !! k = metrics !! k).
Proof.
  cbn zeta. revert metrics w. induction passes as [|n IH]; intros metrics w.
  - cbn. split; [reflexivity|]. split.
    + exists []. rewrite app_nil_r. split; [reflexivity|constructor].
    + intros metrics' [= <-] k _ _. reflexivity.
  - cbn [monitor_performance]. unfold mbind, M_bind, bind.
    destruct (monitor_iteration_observes metrics w) as (Hself & (l & Hsent & Hl) & Hm).
    destruct (monitor_iteration metrics w) as [[metrics1|e] w1]; cbn [fst snd] in *.
    + destruct (IH metrics1 w1) as (Hself' & (l' & Hsent' & Hl') & Hm').
      split; [congruence|]. split.
      * exists (l ++ l'). rewrite Hsent', Hsent, app_assoc.
        split; [reflexivity|]. apply Forall_app. split; assumption.
      * intros metrics' Hr k Hc Hd.
        rewrite (Hm' metrics' Hr k Hc Hd). apply (Hm metrics1 eq_refl k Hc Hd).
    + split; [assumption|]. split; [eauto|discriminate].
Qed.



Lemma updates_keep_keys (updates : list (string * Decimal))
    (metrics : gmap string Decimal) :
  Forall (λ kv, is_Some (metrics !! kv.1)) updates →
  let metrics' := foldl (λ m kv, <[kv.1 := kv.2]> m) metrics updates in
  (∀ k, is_Some (metrics' !! k) ↔ is_Some (metrics !! k)) ∧
  (∀ k, k ∉ updates.*1 → metrics' !! k = metrics !! k).
Proof.
  cbn zeta. revert metrics.
  induction updates as [|[k0 d] updates IH]; intros metrics Hknown; cbn.
  - split; [reflexivity|]. reflexivity.
  - apply Forall_cons in Hknown as [Hk0 Hknown]. cbn [fst] in Hk0.
    destruct (IH (<[k0 := d]> metrics)) as [Hkeys Hsame].
    { eapply Forall_impl; [exact Hknown|]. intros [k d']; cbn.
      intros Hk. destruct (decide (k0 = k)) as [->|Hne].
      - rewrite lookup_insert_eq. eauto.
      - rewrite lookup_insert_ne by exact Hne. exact Hk. }
    split.
    + intros k. rewrite Hkeys. destruct (decide (k0 = k)) as [->|Hne].
      * rewrite lookup_insert_eq. split; [intros _; exact Hk0 | eauto].
      * rewrite lookup_insert_ne by exact Hne. reflexivity.
    + intros k Hk. rewrite not_elem_of_cons in Hk. destruct Hk as [Hne Hk].
      rewrite (Hsame k Hk). apply lookup_insert_ne. congruence.
Qed.

Lemma saved_updates_keys saved metrics updates :
  saved_updates saved metrics = Ok updates → updates.*1 ⊆ saved.*1.
Proof.
  revert updates. induction saved as [|[k v] saved IH]; intros updates H; cbn in H.
  - injection H as <-. reflexivity.
  - destruct (bool_decide (is_Some (metrics !! k))).
    + cbn in H. destruct (Dec.of_string v) as [d|e]; [|discriminate]. cbn in H.
      destruct (saved_updates saved metrics) as [rest|e]; [|discriminate].
      injection H as <-. cbn. intros x. rewrite !elem_of_cons.
      intros [->|Hx]; [left; reflexivity | right; apply (IH rest eq_refl), Hx].
    + intros x Hx. cbn. right. apply (IH updates H), Hx.
Qed.

(** Loading a saved snapshot never adds or drops a metric: the loaded
    dict has exactly the keys it had, and a key the snapshot does not
    mention keeps its value. *)
Theorem load_metrics_keeps_keys saved metrics metrics' :
  load_metrics saved metrics = Ok metrics' →
  (∀ k, is_Some (metrics' !! k) ↔ is_Some (metrics !! k)) ∧
  (∀ k, k ∉ saved.*1 → metrics' !! k = metrics !! k).
Proof.
  unfold load_metrics. cbn.
  destruct (saved_updates saved metrics) as [updates|e] eqn:Hup; [|discriminate].
  intros [= <-].
  destruct (updates_keep_keys updates metrics (saved_updates_known _ _ _ Hup))
    as [Hkeys Hsame].
  split; [exact Hkeys|].
  intros k Hk. apply Hsame. intros Hin. apply Hk.
  apply (saved_updates_keys _ _ _ Hup), Hin.
Qed.

Lemma load_metrics_keeps_keys_witness :
  let saved := [("total_trades"%string, "12"%string);
                ("peak_equity"%string, "10000"%string)] in
  ∃ metrics', load_metrics saved initial_metrics = Ok metrics' ∧
    (∀ k, is_Some (metrics' !! k) ↔ is_Some (initial_metrics !! k)) ∧
    (∀ k, k ∉ saved.*1 → metrics' !! k = initial_metrics !! k).
Proof.
  intros saved. eexists. split; [vm_compute; reflexivity|].
  apply (load_metrics_keeps_keys saved). vm_compute. reflexivity.
Defined.


Lemma run_step_spawned saved ev b :
  Bot.spawned b → Bot.spawned (Bot.run_step saved ev b).
Proof.
  unfold Bot.run_step. destruct (Bot.stage_of b) eqn:Hstage;
    unfold Bot.spawned at 1; rewrite Hstage; intros [Hrun Htasks].
  - destruct (Kraken.pc (Kraken.feed_step _ _ _)) eqn:Hpc;
      try (unfold Bot.spawned; cbn; split; assumption).
    + unfold Bot.after_websocket.
      destruct (Kraken.get_balance _) as [[balance|e] w1];
        [|split; reflexivity].
      destruct (Bot.load_metrics _ _) as [metrics|e]; split; reflexivity.
    + split; reflexivity.
  - unfold Bot.spawned. rewrite Hstage. split; assumption.
  - unfold Bot.spawned. rewrite Hstage. split; assumption.
Qed.

(** [run] creates its tasks only once [initialize] has come back: the six
    strategy tasks and the monitor exist, and [running] is set, exactly
    while [run] waits in [gather]; before that, and after a failed start,
    there is no task and the flag is clear. *)
Theorem run_spawns_tasks_once_initialized saved evs w :
  Bot.spawned (Bot.run_steps saved evs (Bot.run w)).
Proof.
  unfold Bot.run_steps.
  assert (Bot.spawned (Bot.run w)) as Hinit by (split; reflexivity).
  revert Hinit. generalize (Bot.run w). clear w.
  induction evs as [|ev evs IH]; intros b Hb; cbn; [exact Hb|].
  apply IH, run_step_spawned, Hb.
Qed.

End BotOutcomes.

(** ** The runner: retries and shutdown *)

Section RunnerOutcomes.
Import Runner.
Local Open Scope Z_scope.

Lemma start_loop_stopped attempts r :
  should_stop r = true → start_loop attempts r = r.
Proof. intros H. destruct attempts; cbn; [|rewrite H]; reflexivity. Qed.

Lemma start_loop_exhausted attempts r :
  max_retries ≤ retry_count r → start_loop attempts r = r.
Proof.
  intros H. destruct attempts; cbn; [reflexivity|].
  assert ((retry_count r <? max_retries) = false) as -> by (apply Z.ltb_ge; exact H).
  rewrite orb_true_r. reflexivity.
Qed.

Lemma waits_app l k : waits (l ++ k) = waits l ++ waits k.
Proof. apply omap_app. Qed.

Lemma start_loop_backs_off attempts r :
  0 ≤ retry_count r ≤ 3 →
  waits (log r) = take (Z.to_nat (retry_count r)) [60; 120] →
  0 ≤ retry_count (start_loop attempts r) ≤ 3 ∧
  waits (log (start_loop attempts r)) =
    take (Z.to_nat (retry_count (start_loop attempts r))) [60; 120].
Proof.
  revert r. induction attempts as [|[e stop] attempts IH]; intros r Hrc Hw;
    cbn [start_loop]; [split; assumption|].
  destruct (should_stop r || negb (retry_count r <? max_retries)) eqn:Hgo;
    [split; assumption|].
  apply orb_false_iff in Hgo as [_ Hlt]. apply negb_false_iff, Z.ltb_lt in Hlt.
  unfold max_retries in *. cbn [ending_of stop_requested].
  assert (∀ stop' r', waits (log (finally_ stop' r')) = waits (log r')) as Hfin.
  { intros stop' r'. unfold finally_. cbn [log].
    destruct (has_bot r'); [|reflexivity].
    rewrite waits_app. cbn. apply app_nil_r. }
  assert (waits (log (try_ e r)) = waits (log r)) as Htry.
  { destruct e; cbn; rewrite waits_app; cbn; apply app_nil_r. }
  assert (retry_count (try_ e r) = retry_count r) as Hsame by (destruct e; reflexivity).
  assert (∀ k, 0 ≤ retry_count r < 3 → k = retry_count r + 1 →
            waits (log r) = take (Z.to_nat (retry_count r)) [60; 120] →
            waits (log r) ++ (if k <? 3 then [60 * k] else []) =
              take (Z.to_nat k) [60; 120]) as Hnext.
  { intros k Hr -> Hwr. rewrite Hwr.
    assert (retry_count r = 0 ∨ retry_count r = 1 ∨ retry_count r = 2) as Hcases by lia.
    destruct Hcases as [-> | [-> | ->]]; reflexivity. }
  assert (∀ stop' r', retry_count (finally_ stop' r') = retry_count r') as Hrcf
    by reflexivity.
  specialize (Hnext (retry_count r + 1)).
  destruct e; rewrite ?Hsame.
  1, 2: destruct (retry_count r + 1 <? 3) eqn:Hn;
    [apply IH | split]; rewrite ?Hrcf, ?Hfin; cbn [retry_count log];
    rewrite ?waits_app, ?Htry; cbn [waits omap]; try lia;
    rewrite <- Hnext by (first [lia | exact Hw]);
    rewrite ?app_nil_r; reflexivity.
  apply IH; rewrite ?Hrcf, ?Hfin, ?Htry, ?Hsame; [lia | exact Hw].
Qed.


Lemma start_loop_stops_on_request before e after r :
  start_loop (before ++ Attempt e true :: after) r =
  start_loop (before ++ [Attempt e true]) r.
Proof.
  revert r. induction before as [|a before IH]; intros r; cbn [app start_loop].
  - destruct (should_stop r || negb (retry_count r <? max_retries)); [reflexivity|].
    cbn [ending_of stop_requested].
    assert (∀ r', should_stop (finally_ true r') = true) as Hstop.
    { intros r'. unfold finally_. cbn. apply orb_true_r. }
    destruct e; try destruct (_ <? max_retries);
      rewrite ?start_loop_stopped by apply Hstop; reflexivity.
  - destruct (should_stop r || negb (retry_count r <? max_retries)); [reflexivity|].
    destruct (ending_of a); try destruct (_ <? max_retries);
      rewrite ?IH; reflexivity.
Qed.

(** A shutdown signal ends the retries: once [should_stop] is set during
    an attempt, that attempt is the last, however it ends and whatever
    would have followed. *)
Theorem start_stops_on_request before e after :
  start (before ++ Attempt e true :: after) =
  start (before ++ [Attempt e true]).
Proof. apply start_loop_stops_on_request. Qed.

Lemma start_loop_closes_bot attempts r :
  (if has_bot r then ∃ l, log r = l ++ [SaveState; CloseBot]
   else RunBot ∉ log r) →
  if has_bot (start_loop attempts r)
  then ∃ l, log (start_loop attempts r) = l ++ [SaveState; CloseBot]
  else RunBot ∉ log (start_loop attempts r).
Proof.
  revert r. induction attempts as [|[e stop] attempts IH]; intros r Hr;
    cbn [start_loop]; [exact Hr|].
  destruct (should_stop r || negb (retry_count r <? max_retries)); [exact Hr|].
  cbn [ending_of stop_requested].
  assert (∀ stop' r', (if has_bot r' then True else RunBot ∉ log r') →
            if has_bot (finally_ stop' r')
            then ∃ l, log (finally_ stop' r') = l ++ [SaveState; CloseBot]
            else RunBot ∉ log (finally_ stop' r')) as Hfin.
  { intros stop' r'. unfold finally_. cbn [has_bot log].
    destruct (has_bot r'); [eauto|auto]. }
  assert (if has_bot (try_ e r) then True else RunBot ∉ log (try_ e r)) as Htry.
  { destruct e; cbn [try_ has_bot log]; [|exact I|exact I].
    destruct (has_bot r); [exact I|].
    rewrite elem_of_app, elem_of_cons, elem_of_nil.
    intros [H|[H|[]]]; [exact (Hr H)|discriminate]. }
  destruct e.
  - destruct (_ <? max_retries).
    + apply IH, Hfin. cbn [has_bot log].
      destruct (has_bot (try_ BotFailed r)); [exact I|].
      rewrite elem_of_app, elem_of_cons, elem_of_nil.
      intros [H|[H|[]]]; [exact (Htry H)|discriminate].
    + apply Hfin. exact Htry.
  - destruct (_ <? max_retries).
    + apply IH, Hfin. exact I.
    + apply Hfin. exact I.
  - apply IH, Hfin. exact I.
Qed.

(** A bot that was constructed is always wound down: if [start] ends
    with a bot, the last things it did were to save the state and close
    the broker; if it ends without one, no bot ever ran. *)
Theorem start_closes_bot attempts :
  if has_bot (start attempts)
  then ∃ l, log (start attempts) = l ++ [SaveState; CloseBot]
  else RunBot ∉ log (start attempts).
Proof. apply start_loop_closes_bot. cbn. apply not_elem_of_nil. Qed.

End RunnerOutcomes.
